(** * Invoice merge: crop resolution, grid layout and the merge pipeline

    A shallow embedding of [core/models.py], [core/layout.py],
    [core/cropper.py], [core/pdf_engine.py] and [core/merger.py].

    Numbers: Python [int] is [Z] (floor division and modulo are [Z.div] and
    [Z.modulo], which agree with Python's [//] and [%] for a positive
    divisor).  Python [float] coordinates are read twice.  In the modules
    [fitz], [layout], [cropper] and [merger] they are exact rationals [Q]:
    the real-number geometry the floating-point code approximates, on which
    comparisons, [min], [max] and the structure of a run are studied.  In
    the module [binary64] the layout arithmetic is embedded over binary64
    floats, rounding after every operation as the code does; what depends on
    the exact value of a quotient or a product is settled there. *)

From Stdlib Require Import ZArith QArith Qminmax List String Bool Lia Lqa.
Import ListNotations.

Local Open Scope Z_scope.
Local Open Scope Q_scope.

(** ** The rectangle type of the document engine ([fitz.Rect])

    The engine's rectangle is a value object of four coordinates.  The
    operations the program uses are embedded as PyMuPDF documents them:
    [width = max(0, x1 - x0)] and likewise [height]; a rectangle is empty
    when [x0 >= x1] or [y0 >= y1]; [&] is the intersection, where an empty
    operand decides the result before any coordinate is compared; [Rect()]
    is the zero rectangle.  The engine's sentinel for the whole plane is
    never the rectangle of a page or of detected content and is left out. *)
Module fitz.

Record Rect : Type := mkRect { x0 : Q; y0 : Q; x1 : Q; y1 : Q }.

(** [fitz.Rect()] *)
Definition Rect0 : Rect := mkRect 0 0 0 0.

Definition width (r : Rect) : Q := Qmax 0 (x1 r - x0 r).
Definition height (r : Rect) : Q := Qmax 0 (y1 r - y0 r).

(** [r.is_empty] *)
Definition is_empty (r : Rect) : bool :=
  Qle_bool (x1 r) (x0 r) || Qle_bool (y1 r) (y0 r).

(** [r.get_area()] in the page's own unit *)
Definition get_area (r : Rect) : Q := width r * height r.

(** [a & b] *)
Definition and (a b : Rect) : Rect :=
  if is_empty b then b
  else if is_empty a then a
  else mkRect (Qmax (x0 a) (x0 b)) (Qmax (y0 a) (y0 b))
              (Qmin (x1 a) (x1 b)) (Qmin (y1 a) (y1 b)).

(** Coordinate-wise containment of [r] in [outer]. *)
Definition within (r outer : Rect) : Prop :=
  x0 outer <= x0 r /\ y0 outer <= y0 r /\ x1 r <= x1 outer /\ y1 r <= y1 outer.

End fitz.

(** ** [core/models.py] *)
Module models.

Inductive CropMode : Type := auto | top | manual.

Record InvoiceItem : Type := mkInvoiceItem {
  path : string;
  page_index : Z;
  crop_mode : CropMode;
  manual_norm : option (Q * Q * Q * Q)
}.

(** The check of [InvoiceItem.__post_init__] on [manual_norm]. *)
Definition manual_norm_ok (n : Q * Q * Q * Q) : Prop :=
  let '(nx0, ny0, nx1, ny1) := n in
  0 <= nx0 /\ nx0 < nx1 /\ nx1 <= 1 /\ 0 <= ny0 /\ ny0 < ny1 /\ ny1 <= 1.

Record CropConfig : Type := mkCropConfig {
  top_half_ratio : Q;
  auto_margin : Q;
  pixel_threshold : Z;
  pixel_zoom : Q
}.

(** [CropConfig.__post_init__]: the configurations that can be constructed. *)
Definition CropConfig_ok (c : CropConfig) : Prop :=
  0 < top_half_ratio c /\ top_half_ratio c <= 1 /\
  0 <= auto_margin c /\
  (0 <= pixel_threshold c <= 255)%Z /\
  0 < pixel_zoom c.

(** [CropConfig()] with the defaults of the dataclass. *)
Definition CropConfig_default : CropConfig :=
  mkCropConfig (55 # 100) 10 245 (15 # 10).

Inductive Orientation : Type := portrait | landscape.

Record LayoutConfig : Type := mkLayoutConfig {
  rows : Z;
  cols : Z;
  a4_orientation : Orientation;
  margin : Q;
  gap : Q
}.

(** [LayoutConfig.__post_init__]: the configurations that can be constructed. *)
Definition LayoutConfig_ok (c : LayoutConfig) : Prop :=
  (0 < rows c)%Z /\ (0 < cols c)%Z /\ 0 <= margin c /\ 0 <= gap c.

(** [LayoutConfig.page_size] (A4: 595.27 x 841.89 pt) *)
Definition page_size (c : LayoutConfig) : Q * Q :=
  let a4_width := 59527 # 100 in
  let a4_height := 84189 # 100 in
  match a4_orientation c with
  | portrait => (a4_width, a4_height)
  | landscape => (a4_height, a4_width)
  end.

End models.

(** ** [core/layout.py]: [LayoutCalculator]

    The formulas of the source in exact arithmetic; [binary64] below has
    them as the code computes them, rounded after every operation. *)
Module layout.
Import models.

Section LayoutCalculator.
Variable config : LayoutConfig.

Definition get_cell_size : Q * Q :=
  let '(page_w, page_h) := page_size config in
  let margin := margin config in
  let gap := gap config in
  let rows := rows config in
  let cols := cols config in
  let cell_w := (page_w - 2 * margin - inject_Z (cols - 1) * gap) / inject_Z cols in
  let cell_h := (page_h - 2 * margin - inject_Z (rows - 1) * gap) / inject_Z rows in
  (cell_w, cell_h).

Definition calculate_scale (src_rect : fitz.Rect) : Q :=
  let '(cell_w, cell_h) := get_cell_size in
  let src_w := fitz.width src_rect in
  let src_h := fitz.height src_rect in
  if Qle_bool src_w 0 || Qle_bool src_h 0 then 1
  else Qmin (cell_w / src_w) (cell_h / src_h).

Definition get_cell_position (index : Z) : Z * Z :=
  let row := ((index / cols config) mod rows config)%Z in
  let col := (index mod cols config)%Z in
  (row, col).

Definition calculate_dest_rect (src_rect : fitz.Rect) (index : Z) : fitz.Rect :=
  let '(row, col) := get_cell_position index in
  let '(cell_w, cell_h) := get_cell_size in
  let scale := calculate_scale src_rect in
  let scaled_w := fitz.width src_rect * scale in
  let scaled_h := fitz.height src_rect * scale in
  let '(page_w, page_h) := page_size config in
  let margin := margin config in
  let gap := gap config in
  let cell_x := margin + inject_Z col * (cell_w + gap) in
  let cell_y := margin + inject_Z row * (cell_h + gap) in
  let x0 := cell_x + (cell_w - scaled_w) / 2 in
  let y0 := cell_y + (cell_h - scaled_h) / 2 in
  let x1 := x0 + scaled_w in
  let y1 := y0 + scaled_h in
  fitz.mkRect x0 y0 x1 y1.

Definition items_per_page : Z := (rows config * cols config)%Z.

(** [get_cell_position] and [get_cell_size] divide by [cols] and [rows]
    and by nothing else: [calculate_dest_rect] raises ZeroDivisionError
    exactly when one of them is 0.  No constructed configuration has such
    a value, an assigned one may. *)
Definition raises_zero_division : bool :=
  (rows config =? 0)%Z || (cols config =? 0)%Z.

(** Names for the intermediate values of [calculate_dest_rect]: the scaled
    dimensions, the cell of an index and the output page. *)
Definition scaled_w (src_rect : fitz.Rect) : Q :=
  fitz.width src_rect * calculate_scale src_rect.
Definition scaled_h (src_rect : fitz.Rect) : Q :=
  fitz.height src_rect * calculate_scale src_rect.

Definition cell_rect (index : Z) : fitz.Rect :=
  let '(row, col) := get_cell_position index in
  let '(cell_w, cell_h) := get_cell_size in
  let cell_x := margin config + inject_Z col * (cell_w + gap config) in
  let cell_y := margin config + inject_Z row * (cell_h + gap config) in
  fitz.mkRect cell_x cell_y (cell_x + cell_w) (cell_y + cell_h).

Definition page_rect : fitz.Rect :=
  let '(page_w, page_h) := page_size config in
  fitz.mkRect 0 0 page_w page_h.

End LayoutCalculator.
End layout.

(** ** [core/pdf_engine.py] and [core/cropper.py] *)
Module cropper.
Import models.

(** A source page as the cropper sees it: its rectangle, and what the two
    detectors [_detect_object_bounds] and [_detect_pixel_bounds] return for
    it ([fitz.Rect()] when a detector finds nothing or fails). *)
Record Page : Type := mkPage {
  rect : fitz.Rect;
  object_bounds : fitz.Rect;
  pixel_bounds : fitz.Rect
}.

(** An opened document: its pages. *)
Definition Document : Type := list Page.

(** [PDFEngine.get_page]; [None] is the [ValueError] for a bad index. *)
Definition get_page (doc : Document) (page_index : Z) : option Page :=
  if (page_index <? 0)%Z || (Z.of_nat (List.length doc) <=? page_index)%Z then None
  else nth_error doc (Z.to_nat page_index).

(** What a run of [_auto_crop] does, in order. *)
Inductive AutoStep : Type :=
| DetectObject
| DetectPixel
| ReturnFullPage
| ExpandAndClamp.

Section Cropper.
Variable config : CropConfig.

Definition _manual_crop (page : Page) (norm_coords : Q * Q * Q * Q) : fitz.Rect :=
  let '(x0, y0, x1, y1) := norm_coords in
  let page_rect := rect page in
  let rect := fitz.mkRect (x0 * fitz.width page_rect) (y0 * fitz.height page_rect)
                          (x1 * fitz.width page_rect) (y1 * fitz.height page_rect) in
  fitz.and rect page_rect.

Definition _top_half_crop (page : Page) : fitz.Rect :=
  let page_rect := rect page in
  fitz.mkRect 0 0 (fitz.width page_rect)
              (fitz.height page_rect * top_half_ratio config).

Definition _expand_rect (rect : fitz.Rect) (margin : Q) : fitz.Rect :=
  fitz.mkRect (fitz.x0 rect - margin) (fitz.y0 rect - margin)
              (fitz.x1 rect + margin) (fitz.y1 rect + margin).

(** [_auto_crop], returning the rectangle together with the steps taken. *)
Definition _auto_crop_run (page : Page) : fitz.Rect * list AutoStep :=
  let rect0 := object_bounds page in
  let '(rect1, log1) :=
    if fitz.is_empty rect0 || negb (Qle_bool 100 (fitz.get_area rect0))
    then (pixel_bounds page, [DetectObject; DetectPixel])
    else (rect0, [DetectObject]) in
  if fitz.is_empty rect1 then (rect page, log1 ++ [ReturnFullPage])
  else
    let rect2 := _expand_rect rect1 (auto_margin config) in
    (fitz.and rect2 (rect page), log1 ++ [ExpandAndClamp]).

Definition _auto_crop (page : Page) : fitz.Rect := fst (_auto_crop_run page).

(** The test of line 73, under which the pixel tier runs. *)
Definition object_tier_failed (page : Page) : Prop :=
  fitz.is_empty (object_bounds page) = true \/
  fitz.get_area (object_bounds page) < 100.

(** The rectangle in force after line 74. *)
Definition detected (page : Page) : fitz.Rect :=
  if fitz.is_empty (object_bounds page)
     || negb (Qle_bool 100 (fitz.get_area (object_bounds page)))
  then pixel_bounds page
  else object_bounds page.

(** [None] is the exception raised by [get_page]. *)
Definition compute_crop_rect (doc : Document) (page_index : Z) (item : InvoiceItem)
  : option fitz.Rect :=
  match get_page doc page_index with
  | None => None
  | Some page =>
      match crop_mode item, manual_norm item with
      | manual, Some norm => Some (_manual_crop page norm)
      | top, _ => Some (_top_half_crop page)
      | _, _ => Some (_auto_crop page)
      end
  end.

End Cropper.
End cropper.

(** ** [core/merger.py]: [MergeExporter] *)
Module merger.
Import models.

(** What a run does to the outside world, in order.  An engine call that
    raises changes nothing and leaves no event. *)
Inductive Event : Type :=
| CreateOutputDocument
| ReportProgress (current total : Z) (path : string)
| AddPage (width height : Q)
| OpenDocument (path : string)
| ShowPdfPage (dest_page : Z) (src : string) (src_page_index : Z)
              (dest_rect clip : fitz.Rect)
| SaveOutput (output_path : string)
| CloseOutput
| CloseDocument (path : string).

(** The document engine the run talks to: which paths open (and to what),
    which compositions succeed, whether saving to a path succeeds.  [None]
    and [false] stand for the call raising. *)
Record Engine : Type := mkEngine {
  open_document : string -> option cropper.Document;
  show_pdf_page : Z -> string -> Z -> fitz.Rect -> fitz.Rect -> bool;
  save : string -> bool
}.

(** The [opened_docs] dictionary, in insertion order. *)
Definition Cache : Type := list (string * cropper.Document).

Fixpoint cache_get (opened_docs : Cache) (p : string) : option cropper.Document :=
  match opened_docs with
  | [] => None
  | (k, d) :: rest => if String.eqb k p then Some d else cache_get rest p
  end.

(** The [return] statement through which [merge_to_pdf] leaves. *)
Inductive Exit : Type :=
| ReturnEmpty        (* line 43: [return False] *)
| ReturnCancelled    (* line 56: [return False] *)
| ReturnSaved        (* line 110: [return True] *)
| ReturnException.   (* line 113: [return False] *)

(** The Python value returned. *)
Definition returned (e : Exit) : bool :=
  match e with ReturnSaved => true | _ => false end.

(** How the scan over the items ends. *)
Inductive ScanEnd : Type :=
| Cancelled
| Raised
| Scanned (opened_docs : Cache).

(** What one item of the scan leaves behind: its events, the cache after
    it, and whether an exception left the loop. *)
Record ItemRun : Type := mkItemRun {
  item_events : list Event;
  item_cache : Cache;
  item_raised : bool
}.

(** Python's [items[:k]]. *)
Definition slice_to {A : Type} (l : list A) (k : Z) : list A :=
  if (k <? 0)%Z then firstn (Z.to_nat (Z.of_nat (List.length l) + k)) l
  else firstn (Z.to_nat k) l.

Section MergeExporter.
Variable engine : Engine.
Variable layout_config : LayoutConfig.

(** [self.cropper = Cropper()] *)
Definition cropper_config : CropConfig := CropConfig_default.

(** The three guarded stages of one item (lines 71-100 and 143-171): open
    or reuse the source, compute the crop rectangle, place the content.
    An exception inside a stage ends the item ([continue]); one raised by
    [calculate_dest_rect], between the stages, is not caught here. *)
Definition place_item (current_page : option Z) (opened_docs : Cache)
    (item : InvoiceItem) (cell_index : Z) : ItemRun :=
  let opened :=
    match cache_get opened_docs (path item) with
    | Some d => Some (d, opened_docs, [])
    | None =>
        match open_document engine (path item) with
        | Some d => Some (d, opened_docs ++ [(path item, d)], [OpenDocument (path item)])
        | None => None
        end
    end in
  match opened with
  | None => mkItemRun [] opened_docs false
  | Some (src_doc, opened_docs', evs) =>
      match cropper.compute_crop_rect cropper_config src_doc (page_index item) item with
      | None => mkItemRun evs opened_docs' false
      | Some crop_rect =>
          if layout.raises_zero_division layout_config
          then mkItemRun evs opened_docs' true
          else
            let dest_rect :=
              layout.calculate_dest_rect layout_config crop_rect cell_index in
            match current_page with
            | None => mkItemRun evs opened_docs' false
            | Some pg =>
                if show_pdf_page engine pg (path item) (page_index item)
                     dest_rect crop_rect
                then mkItemRun
                       (evs ++ [ShowPdfPage pg (path item) (page_index item)
                                  dest_rect crop_rect])
                       opened_docs' false
                else mkItemRun evs opened_docs' false
            end
      end
  end.

Section merge_to_pdf.
Variable total : Z.
Variable progress_callback : bool.
(** [cancel_check], when supplied: its answer at the poll of item [idx]. *)
Variable cancel_check : option (Z -> bool).

(** The [for idx, item in enumerate(items)] loop, from item [idx] on.
    [pages] is the number of pages of the output document so far.
    [idx % items_per_page] raises when [items_per_page] is 0. *)
Fixpoint scan (items : list InvoiceItem) (idx : Z) (current_page : option Z)
    (pages : Z) (opened_docs : Cache) : list Event * ScanEnd :=
  match items with
  | [] => ([], Scanned opened_docs)
  | item :: rest =>
      if match cancel_check with Some poll => poll idx | None => false end
      then ([], Cancelled)
      else
        let ev_progress :=
          if progress_callback then [ReportProgress (idx + 1) total (path item)]
          else [] in
        let items_per_page := layout.items_per_page layout_config in
        if (items_per_page =? 0)%Z then (ev_progress, Raised)
        else
          let '(page_w, page_h) := page_size layout_config in
          let '(ev_page, current_page', pages') :=
            if (idx mod items_per_page =? 0)%Z
            then ([AddPage page_w page_h], Some pages, (pages + 1)%Z)
            else ([], current_page, pages) in
          let cell_index := (idx mod items_per_page)%Z in
          let run := place_item current_page' opened_docs item cell_index in
          if item_raised run
          then (ev_progress ++ ev_page ++ item_events run, Raised)
          else
            let '(ev_rest, fin) :=
              scan rest (idx + 1)%Z current_page' pages' (item_cache run) in
            (ev_progress ++ ev_page ++ item_events run ++ ev_rest, fin)
  end.
End merge_to_pdf.

Definition merge_to_pdf (items : list InvoiceItem) (output_path : string)
    (progress_callback : bool) (cancel_check : option (Z -> bool))
  : Exit * list Event :=
  match items with
  | [] => (ReturnEmpty, [])
  | _ :: _ =>
      let '(evs, fin) :=
        scan (Z.of_nat (List.length items)) progress_callback cancel_check
             items 0%Z None 0%Z [] in
      match fin with
      | Cancelled => (ReturnCancelled, CreateOutputDocument :: evs)
      | Raised => (ReturnException, CreateOutputDocument :: evs)
      | Scanned opened_docs =>
          if save engine output_path
          then (ReturnSaved,
                CreateOutputDocument :: evs ++ [SaveOutput output_path; CloseOutput]
                  ++ map (fun kd => CloseDocument (fst kd)) opened_docs)
          else (ReturnException, CreateOutputDocument :: evs)
      end
  end.

(** The [for idx, item in enumerate(preview_items)] loop of
    [generate_preview_page]: one page, the raw [idx] as cell index.
    [None] for the cache is an exception leaving the loop. *)
Fixpoint preview_scan (items : list InvoiceItem) (idx : Z) (current_page : Z)
    (opened_docs : Cache) : list Event * option Cache :=
  match items with
  | [] => ([], Some opened_docs)
  | item :: rest =>
      let run := place_item (Some current_page) opened_docs item idx in
      if item_raised run then (item_events run, None)
      else
        let '(ev_rest, fin) :=
          preview_scan rest (idx + 1)%Z current_page (item_cache run) in
        (item_events run ++ ev_rest, fin)
  end.

(** [generate_preview_page]: [true] when a document is returned, [false]
    for [None]; with the events of the call. *)
Definition generate_preview_page (items : list InvoiceItem) (max_items : option Z)
  : bool * list Event :=
  match items with
  | [] => (false, [])
  | _ :: _ =>
      let items_per_page := layout.items_per_page layout_config in
      let max_items := match max_items with None => items_per_page | Some m => m end in
      let preview_items :=
        slice_to items (Z.min max_items (Z.of_nat (List.length items))) in
      let '(page_w, page_h) := page_size layout_config in
      let '(evs, fin) := preview_scan preview_items 0%Z 0%Z [] in
      match fin with
      | Some opened_docs =>
          (true,
           CreateOutputDocument :: AddPage page_w page_h :: evs
             ++ map (fun kd => CloseDocument (fst kd)) opened_docs)
      | None => (false, CreateOutputDocument :: AddPage page_w page_h :: evs)
      end
  end.

End MergeExporter.

(** *** Reading a trace *)

(** The source handles open at the end of a trace. *)
Fixpoint open_handles (acc : list string) (evs : list Event) : list string :=
  match evs with
  | [] => acc
  | OpenDocument p :: rest => open_handles (acc ++ [p]) rest
  | CloseDocument p :: rest =>
      open_handles (filter (fun q => negb (String.eqb q p)) acc) rest
  | _ :: rest => open_handles acc rest
  end.

Definition is_show (e : Event) : bool :=
  match e with ShowPdfPage _ _ _ _ _ => true | _ => false end.
Definition is_open (e : Event) : bool :=
  match e with OpenDocument _ => true | _ => false end.
Definition is_add_page (e : Event) : bool :=
  match e with AddPage _ _ => true | _ => false end.
Definition is_output (e : Event) : bool :=
  match e with
  | CreateOutputDocument | AddPage _ _ | SaveOutput _ | CloseOutput => true
  | _ => false
  end.

(** The compositions of a trace, in order. *)
Definition placed (evs : list Event) : list Event := filter is_show evs.

(** The output page a composition went to. *)
Definition on_page (pg : Z) (e : Event) : Prop :=
  match e with ShowPdfPage dest_page _ _ _ _ => dest_page = pg | _ => True end.

(** A cancellation predicate that never asks to stop (or none supplied). *)
Definition never_cancelled (cancel_check : option (Z -> bool)) : Prop :=
  match cancel_check with
  | None => True
  | Some poll => forall idx : Z, poll idx = false
  end.

(** *** The per-item view of a run

    What the three stages do for one item taken alone, as a function of the
    item and of its position only: the item's composition when the source
    opens, the crop rectangle resolves and the composition succeeds, and
    nothing otherwise.  [placements] lays the items out one by one, item
    [idx] on page [idx // items_per_page] at cell [idx % items_per_page]. *)
Section PerItem.
Variable engine : Engine.
Variable layout_config : LayoutConfig.

Definition placement_at (pg cell_index : Z) (item : InvoiceItem) : list Event :=
  match open_document engine (path item) with
  | None => []
  | Some src_doc =>
      match cropper.compute_crop_rect cropper_config src_doc (page_index item) item with
      | None => []
      | Some crop_rect =>
          let dest_rect := layout.calculate_dest_rect layout_config crop_rect cell_index in
          if show_pdf_page engine pg (path item) (page_index item) dest_rect crop_rect
          then [ShowPdfPage pg (path item) (page_index item) dest_rect crop_rect]
          else []
      end
  end.

Fixpoint placements (items : list InvoiceItem) (idx : Z) : list Event :=
  match items with
  | [] => []
  | item :: rest =>
      placement_at (idx / layout.items_per_page layout_config)
                   (idx mod layout.items_per_page layout_config) item
        ++ placements rest (idx + 1)%Z
  end.

(** Every cached handle is the document its path opens to. *)
Definition cache_ok (opened_docs : Cache) : Prop :=
  forall p d, cache_get opened_docs p = Some d -> open_document engine p = Some d.

(** The loop variables on entry to the iteration of item [idx]: the
    number of output pages so far and, inside a page, the current page. *)
Definition page_inv (idx : Z) (current_page : option Z) (pages : Z) : Prop :=
  let items_per_page := layout.items_per_page layout_config in
  pages = ((idx + items_per_page - 1) / items_per_page)%Z /\
  ((idx mod items_per_page)%Z <> 0%Z ->
   current_page = Some (idx / items_per_page)%Z).
End PerItem.

End merger.

(** ** Scenarios used to run the model on concrete inputs *)
Module scenario.
Import models.

(** A one-page source, 200 x 100, with detected content. *)
Definition one_page : cropper.Document :=
  [cropper.mkPage (fitz.mkRect 0 0 200 100) (fitz.mkRect 10 10 150 90) fitz.Rect0].

(** Every path opens except ["missing.pdf"]; composing and saving succeed. *)
Definition engine : merger.Engine :=
  merger.mkEngine
    (fun p => if String.eqb p "missing.pdf" then None else Some one_page)
    (fun _ _ _ _ _ => true)
    (fun _ => true).

(** The same engine with a [save] that raises. *)
Definition engine_save_fails : merger.Engine :=
  merger.mkEngine (merger.open_document engine) (merger.show_pdf_page engine)
                  (fun _ => false).

(** [LayoutConfig()] with the defaults of the dataclass: a 2 x 2 grid. *)
Definition layout_2x2 : LayoutConfig := mkLayoutConfig 2 2 portrait 20 10.

(** [InvoiceItem(path)] *)
Definition item (p : string) : InvoiceItem := mkInvoiceItem p 0 auto None.

End scenario.
From Stdlib Require Import Permutation Qabs Qpower.
From Stdlib Require Uint63 PrimFloat FloatOps SpecFloat FloatAxioms.



(** ** [core/cropper.py]: the two detectors

    [_detect_object_bounds] and [_detect_pixel_bounds], over what the
    engine answers for a page.  Their values are the [object_bounds] and
    [pixel_bounds] of a [cropper.Page]. *)
Module detect.
Import models.

(** [a | b], as PyMuPDF documents [include_rect]: the smallest rectangle
    containing both; if one is empty the other is the result. *)
Definition or (a b : fitz.Rect) : fitz.Rect :=
  if fitz.is_empty b then a
  else if fitz.is_empty a then b
  else fitz.mkRect (Qmin (fitz.x0 a) (fitz.x0 b)) (Qmin (fitz.y0 a) (fitz.y0 b))
                   (Qmax (fitz.x1 a) (fitz.x1 b)) (Qmax (fitz.y1 a) (fitz.y1 b)).

(** An entry of a text block tuple: a number, or something else (the text,
    for instance). *)
Inductive Entry : Type :=
| Num (q : Q)
| Other.

(** [fitz.Rect(block[:4])]; [None] when an entry is not a number. *)
Definition rect_of_entries (es : list Entry) : option fitz.Rect :=
  match es with
  | [Num a; Num b; Num c; Num d] => Some (fitz.mkRect a b c d)
  | _ => None
  end.

(** What the engine answers for a page; [None] is a call that raises.
    A drawing carries its ["rect"] entry or none; an image its bounding
    box, or [None] when [get_image_bbox] raises for it. *)
Record PageObjects : Type := mkPageObjects {
  text_blocks : option (list (list Entry));
  drawings : option (list (option fitz.Rect));
  images : option (list (option fitz.Rect))
}.

(** The loop of lines 91-93; an exception ends it, keeping what was
    appended before. *)
Fixpoint text_loop (blocks : list (list Entry)) : list fitz.Rect :=
  match blocks with
  | [] => []
  | block :: rest =>
      if (4 <=? List.length block)%nat
      then match rect_of_entries (firstn 4 block) with
           | Some r => r :: text_loop rest
           | None => []
           end
      else text_loop rest
  end.

(** The loop of lines 100-102. *)
Fixpoint drawing_loop (ds : list (option fitz.Rect)) : list fitz.Rect :=
  match ds with
  | [] => []
  | Some r :: rest => r :: drawing_loop rest
  | None :: rest => drawing_loop rest
  end.

(** The loop of lines 109-113; [get_image_bbox] raising ends it. *)
Fixpoint image_loop (imgs : list (option fitz.Rect)) : list fitz.Rect :=
  match imgs with
  | [] => []
  | None :: _ => []
  | Some bbox :: rest =>
      if fitz.is_empty bbox then image_loop rest else bbox :: image_loop rest
  end.

(** The list [rects] at line 117. *)
Definition gathered (objs : PageObjects) : list fitz.Rect :=
  (match text_blocks objs with Some l => text_loop l | None => [] end)
  ++ (match drawings objs with Some l => drawing_loop l | None => [] end)
  ++ (match images objs with Some l => image_loop l | None => [] end).

(** Lines 118-124: [fitz.Rect()] for no rectangle, else the first one
    united with the others in turn. *)
Definition union_all (rects : list fitz.Rect) : fitz.Rect :=
  match rects with
  | [] => fitz.Rect0
  | first :: rest => fold_left or rest first
  end.

Definition _detect_object_bounds (objs : PageObjects) : fitz.Rect :=
  union_all (gathered objs).

(** A rendered page: [pix.width], [pix.height] and the bytes of
    [pix.samples]. *)
Record Pixmap : Type := mkPixmap {
  pix_width : nat;
  pix_height : nat;
  samples : list Z
}.

(** Consecutive triples of a list of bytes. *)
Fixpoint triples (bytes : list Z) : list (Z * Z * Z) :=
  match bytes with
  | r :: g :: b :: rest => (r, g, b) :: triples rest
  | _ => []
  end.

Fixpoint rows_of {A : Type} (height width : nat) (l : list A) : list (list A) :=
  match height with
  | O => []
  | S h => firstn width l :: rows_of h width (skipn width l)
  end.

(** [np.frombuffer(pix.samples, dtype=np.uint8).reshape(pix.height,
    pix.width, 3)]; [None] when the sizes do not agree and [reshape]
    raises. *)
Definition reshape (pix : Pixmap) : option (list (list (Z * Z * Z))) :=
  if (List.length (samples pix) =? pix_height pix * pix_width pix * 3)%nat
  then Some (rows_of (pix_height pix) (pix_width pix) (triples (samples pix)))
  else None.

(** [np.mean(img_array, axis=2).astype(np.uint8)] for one pixel: the mean
    of three bytes, truncated. *)
Definition gray (px : Z * Z * Z) : Z :=
  let '(r, g, b) := px in ((r + g + b) / 3)%Z.

(** [np.where(v)[0][0]] and [np.where(v)[0][-1]]: the first and the last
    index at which [v] holds; [None] when it holds nowhere. *)
Fixpoint first_true (v : list bool) : option nat :=
  match v with
  | [] => None
  | b :: rest =>
      if b then Some O
      else match first_true rest with Some i => Some (S i) | None => None end
  end.

Fixpoint last_true (v : list bool) : option nat :=
  match v with
  | [] => None
  | b :: rest =>
      match last_true rest with
      | Some i => Some (S i)
      | None => if b then Some O else None
      end
  end.

Section PixelBounds.
Variable config : CropConfig.

(** [mask = gray < self.config.pixel_threshold] *)
Definition mask_of (img : list (list (Z * Z * Z))) : list (list bool) :=
  map (map (fun px => (gray px <? pixel_threshold config)%Z)) img.

(** [np.any(mask, axis=1)] and [np.any(mask, axis=0)] *)
Definition any_rows (mask : list (list bool)) : list bool :=
  map (existsb (fun b => b)) mask.
Definition any_cols (width : nat) (mask : list (list bool)) : list bool :=
  map (fun x => existsb (fun row => nth x row false) mask) (seq 0 width).

(** [pixmap] is what [page.get_pixmap] returns, [None] when it raises.
    Every exception gives [fitz.Rect()]. *)
Definition _detect_pixel_bounds (pixmap : option Pixmap) : fitz.Rect :=
  match pixmap with
  | None => fitz.Rect0
  | Some pix =>
      match reshape pix with
      | None => fitz.Rect0
      | Some img_array =>
          let mask := mask_of img_array in
          if negb (existsb (existsb (fun b => b)) mask) then fitz.Rect0
          else
            let rows := any_rows mask in
            let cols := any_cols (pix_width pix) mask in
            match first_true rows, last_true rows,
                  first_true cols, last_true cols with
            | Some y_min, Some y_max, Some x_min, Some x_max =>
                let zoom := pixel_zoom config in
                fitz.mkRect (inject_Z (Z.of_nat x_min) / zoom)
                            (inject_Z (Z.of_nat y_min) / zoom)
                            (inject_Z (Z.of_nat x_max + 1) / zoom)
                            (inject_Z (Z.of_nat y_max + 1) / zoom)
            | _, _, _, _ => fitz.Rect0
            end
      end
  end.

(** The pixel of row [y] and column [x] is darker than the threshold. *)
Definition ink (img : list (list (Z * Z * Z))) (y x : nat) : Prop :=
  nth x (nth y (mask_of img) []) false = true.
End PixelBounds.

End detect.

(** ** [core/models.py]: [ExportProgress] *)
Module progress.

Record ExportProgress : Type := mkExportProgress {
  current : Z;
  total : Z;
  current_file : string
}.

(** [ExportProgress.percentage] *)
Definition percentage (p : ExportProgress) : Q :=
  if (total p =? 0)%Z then 0
  else (inject_Z (current p) / inject_Z (total p)) * 100.

End progress.

(** ** Further readings of a trace *)
Module trace.
Import models merger.

(** The paths opened, in order. *)
Fixpoint opens (evs : list Event) : list string :=
  match evs with
  | [] => []
  | OpenDocument p :: rest => p :: opens rest
  | _ :: rest => opens rest
  end.

Definition is_save (e : Event) : bool :=
  match e with SaveOutput _ => true | _ => false end.

Definition is_close (e : Event) : bool :=
  match e with CloseDocument _ => true | _ => false end.

Definition is_progress (e : Event) : bool :=
  match e with ReportProgress _ _ _ => true | _ => false end.

(** The progress reports, in order. *)
Definition reports (evs : list Event) : list Event := filter is_progress evs.

(** One report per item, numbered from [idx + 1], all with the same
    total. *)
Fixpoint reports_for (total : Z) (items : list InvoiceItem) (idx : Z) : list Event :=
  match items with
  | [] => []
  | item :: rest =>
      ReportProgress (idx + 1) total (path item) :: reports_for total rest (idx + 1)
  end.

(** A composition goes to page [pg] or a later one. *)
Definition from_page (pg : Z) (e : Event) : Prop :=
  match e with ShowPdfPage dest_page _ _ _ _ => (pg <= dest_page)%Z | _ => True end.

End trace.


(** ** The file list of the window ([invoice_merge_gui.py]) *)
Module gui.
Import models.

(** [lst[i] = x] for an index in range. *)
Fixpoint setitem (lst : list InvoiceItem) (i : nat) (x : InvoiceItem) : list InvoiceItem :=
  match lst, i with
  | [], _ => []
  | _ :: rest, O => x :: rest
  | h :: rest, S i' => h :: setitem rest i' x
  end.

(** The window state the list operations touch: [self.items] and the
    selection of the list box ([curselection()], a tuple of indices). *)
Definition FileList : Type := (list InvoiceItem * list nat)%type.

(** [_move_up]; [None] is the [IndexError] of an index past the list.
    [_refresh_list] rebuilds the list box, which drops the selection, and
    [selection_set] then selects the moved entry. *)
Definition _move_up (st : FileList) : option FileList :=
  let '(items, selection) := st in
  match selection with
  | idx :: _ =>
      if (0 <? idx)%nat then
        match nth_error items (idx - 1), nth_error items idx with
        | Some above, Some chosen =>
            Some (setitem (setitem items idx above) (idx - 1) chosen, [(idx - 1)%nat])
        | _, _ => None
        end
      else Some st
  | [] => Some st
  end.

(** [_move_down] *)
Definition _move_down (st : FileList) : option FileList :=
  let '(items, selection) := st in
  match selection with
  | idx :: _ =>
      if (Z.of_nat idx <? Z.of_nat (List.length items) - 1)%Z then
        match nth_error items (idx + 1), nth_error items idx with
        | Some below, Some chosen =>
            Some (setitem (setitem items idx below) (idx + 1) chosen, [(idx + 1)%nat])
        | _, _ => None
        end
      else Some st
  | [] => Some st
  end.

End gui.

(** ** The background task runner ([core/tasks.py]) *)
Module tasks.
Import progress.

(** [current_task] is the thread last started, with what its [is_alive()]
    answers; [progress_queue] is an unbounded FIFO queue; [cancel_flag] is
    the event. *)
Record TaskRunner : Type := mkTaskRunner {
  current_task : option bool;
  progress_queue : list ExportProgress;
  cancel_flag : bool
}.

(** [TaskRunner()] *)
Definition init : TaskRunner := mkTaskRunner None [] false.

Definition is_running (r : TaskRunner) : bool :=
  match current_task r with Some alive => alive | None => false end.

Definition cancel (r : TaskRunner) : TaskRunner :=
  mkTaskRunner (current_task r) (progress_queue r) true.

Definition is_cancelled (r : TaskRunner) : bool := cancel_flag r.

(** [run_task]; [None] is the [RuntimeError]. *)
Definition run_task (r : TaskRunner) : option TaskRunner :=
  if is_running r then None
  else Some (mkTaskRunner (Some true) (progress_queue r) false).

Definition report_progress (r : TaskRunner) (p : ExportProgress) : TaskRunner :=
  mkTaskRunner (current_task r) (progress_queue r ++ [p]) (cancel_flag r).

Definition get_progress (r : TaskRunner) : option ExportProgress * TaskRunner :=
  match progress_queue r with
  | [] => (None, r)
  | p :: rest => (Some p, mkTaskRunner (current_task r) rest (cancel_flag r))
  end.

(** The target of the running thread returns. *)
Definition task_ends (r : TaskRunner) : TaskRunner :=
  mkTaskRunner (match current_task r with Some _ => Some false | None => None end)
               (progress_queue r) (cancel_flag r).

(** What the owner and the task do to a runner, one call at a time. *)
Inductive Call : Type :=
| Cancel
| RunTask
| Report (p : ExportProgress)
| GetProgress
| TaskEnds.

(** One call; a rejected [run_task] leaves the runner as it was. *)
Definition call (r : TaskRunner) (c : Call) : TaskRunner :=
  match c with
  | Cancel => cancel r
  | RunTask => match run_task r with Some r' => r' | None => r end
  | Report p => report_progress r p
  | GetProgress => snd (get_progress r)
  | TaskEnds => task_ends r
  end.

Definition calls (r : TaskRunner) (cs : list Call) : TaskRunner := fold_left call cs r.

Definition is_cancel (c : Call) : bool :=
  match c with Cancel => true | _ => false end.

Definition is_run_task (c : Call) : bool :=
  match c with RunTask => true | _ => false end.

Definition is_task_ends (c : Call) : bool :=
  match c with TaskEnds => true | _ => false end.

(** [n] calls of [get_progress] in a row: the answers, and the runner left. *)
Fixpoint poll (n : nat) (r : TaskRunner) : list (option ExportProgress) * TaskRunner :=
  match n with
  | O => ([], r)
  | S n' =>
      let '(answer, r') := get_progress r in
      let '(answers, r'') := poll n' r' in
      (answer :: answers, r'')
  end.

End tasks.

(** ** The layout arithmetic in binary64

    [core/layout.py] computes with Python floats.  This module embeds the
    same functions over the kernel's binary64 floats, operation by
    operation as the source writes them, so that a computation of the code
    can be replayed bit for bit: [get_cell_size], [calculate_scale] and
    [calculate_dest_rect] round after every [+], [-], [*] and [/].  The
    module [layout] above is the reading of the same formulas in exact
    arithmetic. *)
Module binary64.
Import PrimFloat.
#[local] Set Warnings "-inexact-float".
Local Open Scope float_scope.

Record Rect : Type := mkRect { x0 : float; y0 : float; x1 : float; y1 : float }.

(** Python's [max(a, b)] and [min(a, b)]: the first argument unless the
    second compares strictly greater (smaller). *)
Definition max (a b : float) : float := if ltb a b then b else a.
Definition min (a b : float) : float := if ltb b a then b else a.

Definition width (r : Rect) : float := max 0 (x1 r - x0 r).
Definition height (r : Rect) : float := max 0 (y1 r - y0 r).

(** The conversion of a Python [int] in a mixed product; exact below
    [2^53] in absolute value. *)
Definition float_of_int (n : Z) : float :=
  if (n <? 0)%Z then - of_uint63 (Uint63.of_Z (- n)) else of_uint63 (Uint63.of_Z n).

Record LayoutConfig : Type := mkLayoutConfig {
  rows : Z;
  cols : Z;
  a4_orientation : models.Orientation;
  margin : float;
  gap : float
}.

(** [LayoutConfig.__post_init__] *)
Definition LayoutConfig_ok (c : LayoutConfig) : Prop :=
  (0 < rows c)%Z /\ (0 < cols c)%Z /\ ltb (margin c) 0 = false /\ ltb (gap c) 0 = false.

Definition page_size (c : LayoutConfig) : float * float :=
  let a4_width := 595.27 in
  let a4_height := 841.89 in
  match a4_orientation c with
  | models.portrait => (a4_width, a4_height)
  | models.landscape => (a4_height, a4_width)
  end.

Section LayoutCalculator.
Variable config : LayoutConfig.

Definition get_cell_size : float * float :=
  let '(page_w, page_h) := page_size config in
  let margin := margin config in
  let gap := gap config in
  let rows := rows config in
  let cols := cols config in
  let cell_w := (page_w - 2 * margin - float_of_int (cols - 1) * gap) / float_of_int cols in
  let cell_h := (page_h - 2 * margin - float_of_int (rows - 1) * gap) / float_of_int rows in
  (cell_w, cell_h).

Definition calculate_scale (src_rect : Rect) : float :=
  let '(cell_w, cell_h) := get_cell_size in
  let src_w := width src_rect in
  let src_h := height src_rect in
  if leb src_w 0 || leb src_h 0 then 1
  else min (cell_w / src_w) (cell_h / src_h).

Definition get_cell_position (index : Z) : Z * Z :=
  let row := ((index / cols config) mod rows config)%Z in
  let col := (index mod cols config)%Z in
  (row, col).

Definition calculate_dest_rect (src_rect : Rect) (index : Z) : Rect :=
  let '(row, col) := get_cell_position index in
  let '(cell_w, cell_h) := get_cell_size in
  let scale := calculate_scale src_rect in
  let scaled_w := width src_rect * scale in
  let scaled_h := height src_rect * scale in
  let '(page_w, page_h) := page_size config in
  let margin := margin config in
  let gap := gap config in
  let cell_x := margin + float_of_int col * (cell_w + gap) in
  let cell_y := margin + float_of_int row * (cell_h + gap) in
  let x0 := cell_x + (cell_w - scaled_w) / 2 in
  let y0 := cell_y + (cell_h - scaled_h) / 2 in
  let x1 := x0 + scaled_w in
  let y1 := y0 + scaled_h in
  mkRect x0 y0 x1 y1.

(** Names for the intermediate values of [calculate_dest_rect], as in
    [layout]. *)
Definition scaled_w (src_rect : Rect) : float :=
  width src_rect * calculate_scale src_rect.
Definition scaled_h (src_rect : Rect) : float :=
  height src_rect * calculate_scale src_rect.

(** The centring offsets [(cell_w - scaled_w) / 2] and
    [(cell_h - scaled_h) / 2]. *)
Definition offset_x (src_rect : Rect) : float :=
  (fst get_cell_size - scaled_w src_rect) / 2.
Definition offset_y (src_rect : Rect) : float :=
  (snd get_cell_size - scaled_h src_rect) / 2.

Definition cell_rect (index : Z) : Rect :=
  let '(row, col) := get_cell_position index in
  let '(cell_w, cell_h) := get_cell_size in
  let cell_x := margin config + float_of_int col * (cell_w + gap config) in
  let cell_y := margin config + float_of_int row * (cell_h + gap config) in
  mkRect cell_x cell_y (cell_x + cell_w) (cell_y + cell_h).

Definition page_rect : Rect :=
  let '(page_w, page_h) := page_size config in
  mkRect 0 0 page_w page_h.

End LayoutCalculator.

(** Coordinate-wise containment of [r] in [outer], decided on the floats. *)
Definition within (r outer : Rect) : bool :=
  leb (x0 outer) (x0 r) && leb (y0 outer) (y0 r) &&
  leb (x1 r) (x1 outer) && leb (y1 r) (y1 outer).




(** The exact results for which an operation is known to round like that:
    the normal range, kept a factor two below the overflow threshold. *)
Definition in_range (exact : Q) : Prop :=
  (2 ^ (-1022) <= Qabs exact /\ Qabs exact < 2 ^ 1023)%Q.



(** The inputs of the runs replayed below. *)
Module scenario.

(** [LayoutConfig()], the 2 x 2 grid with margin 20 and gap 10 *)
Definition layout_2x2 : LayoutConfig := mkLayoutConfig 2 2 models.portrait 20 10.

(** [LayoutConfig(rows=1, cols=1, margin=0, gap=0)] *)
Definition layout_1x1 : LayoutConfig := mkLayoutConfig 1 1 models.portrait 0 0.


Definition rect_269x100 : Rect := mkRect 0 0 269 100.
Definition rect_595x100 : Rect := mkRect 0 0 595 100.
Definition rect_1x3 : Rect := mkRect 0 0 1 3.

End scenario.
End binary64.

(** ** What a run reports *)
Module outcome.
Import merger.

(** The outcomes the specification names for a run.  The code has none of
    them: [merge_to_pdf] returns a [bool]. *)
Inductive Outcome : Type := Completed | Failed | Cancelled.

(** The destination rectangles of the compositions of a trace, in order. *)
Definition dest_rects (evs : list Event) : list fitz.Rect :=
  flat_map (fun e => match e with
                     | ShowPdfPage _ _ _ dest_rect _ => [dest_rect]
                     | _ => []
                     end) evs.

End outcome.

(** * Properties *)

Import models.

(** ** Grid layout *)
Section LayoutFacts.
Variable config : LayoutConfig.

Lemma get_cell_position_range (index : Z) :
  (0 < rows config)%Z -> (0 < cols config)%Z ->
  (0 <= fst (layout.get_cell_position config index) < rows config)%Z /\
  (0 <= snd (layout.get_cell_position config index) < cols config)%Z.
Proof.
  intros Hr Hc. unfold layout.get_cell_position. cbn [fst snd].
  split; apply Z.mod_pos_bound; assumption.
Qed.

Lemma width_pos_eq (r : fitz.Rect) :
  0 < fitz.width r -> fitz.width r == fitz.x1 r - fitz.x0 r.
Proof.
  unfold fitz.width. intros H.
  destruct (Q.max_spec 0 (fitz.x1 r - fitz.x0 r)) as [[_ E] | [L E]].
  - exact E.
  - rewrite E in H. exfalso. apply (Qlt_irrefl 0). exact H.
Qed.

Lemma positive_not_guarded (w h : Q) :
  0 < w -> 0 < h -> Qle_bool w 0 || Qle_bool h 0 = false.
Proof.
  intros Hw Hh. apply orb_false_iff. split.
  - destruct (Qle_bool w 0) eqn:E; [|reflexivity].
    apply Qle_bool_iff in E. exfalso. apply (Qlt_not_le _ _ Hw E).
  - destruct (Qle_bool h 0) eqn:E; [|reflexivity].
    apply Qle_bool_iff in E. exfalso. apply (Qlt_not_le _ _ Hh E).
Qed.

Lemma calculate_scale_positive_rect (r : fitz.Rect) :
  0 < fitz.width r -> 0 < fitz.height r ->
  layout.calculate_scale config r =
    Qmin (fst (layout.get_cell_size config) / fitz.width r)
         (snd (layout.get_cell_size config) / fitz.height r).
Proof.
  intros Hw Hh. unfold layout.calculate_scale.
  destruct (layout.get_cell_size config) as [cw ch]. cbn [fst snd].
  rewrite (positive_not_guarded _ _ Hw Hh). reflexivity.
Qed.

Lemma scaled_w_le_cell (r : fitz.Rect) :
  0 < fitz.width r -> 0 < fitz.height r ->
  layout.scaled_w config r <= fst (layout.get_cell_size config).
Proof.
  intros Hw Hh. unfold layout.scaled_w.
  rewrite (calculate_scale_positive_rect r Hw Hh).
  set (cw := fst (layout.get_cell_size config)).
  set (ch := snd (layout.get_cell_size config)).
  apply Qle_trans with (fitz.width r * (cw / fitz.width r)).
  - apply Qmult_le_l; [exact Hw | apply Q.le_min_l].
  - apply Qle_lteq. right. field. intro E. rewrite E in Hw.
    apply (Qlt_irrefl 0 Hw).
Qed.

Lemma scaled_h_le_cell (r : fitz.Rect) :
  0 < fitz.width r -> 0 < fitz.height r ->
  layout.scaled_h config r <= snd (layout.get_cell_size config).
Proof.
  intros Hw Hh. unfold layout.scaled_h.
  rewrite (calculate_scale_positive_rect r Hw Hh).
  set (cw := fst (layout.get_cell_size config)).
  set (ch := snd (layout.get_cell_size config)).
  apply Qle_trans with (fitz.height r * (ch / fitz.height r)).
  - apply Qmult_le_l; [exact Hh | apply Q.le_min_r].
  - apply Qle_lteq. right. field. intro E. rewrite E in Hh.
    apply (Qlt_irrefl 0 Hh).
Qed.

Lemma inject_Z_pred (z : Z) : inject_Z (z - 1) == inject_Z z - 1.
Proof.
  unfold Z.sub. rewrite inject_Z_plus. unfold Qminus.
  apply Qplus_comp; [reflexivity|]. reflexivity.
Qed.

(** One axis of the grid: the cell of column [k] (of [c] columns of width
    [cw], separated by [g], inside margins [m]) lies on a page of width
    [p]. *)
Lemma cell_on_axis (m g cw p c k : Q) :
  0 <= m -> 0 <= g -> 0 < cw -> 0 <= k -> k <= c - 1 ->
  cw * c == p - 2 * m - (c - 1) * g ->
  0 <= m + k * (cw + g) /\ m + k * (cw + g) + cw <= p.
Proof.
  intros Hm Hg Hcw Hk Hkc E.
  assert (Hk0 : 0 <= k * (cw + g)).
  { apply Qmult_le_0_compat; [exact Hk | lra]. }
  assert (Hk1 : k * (cw + g) <= (c - 1) * (cw + g)).
  { apply Qmult_le_compat_r; [exact Hkc | lra]. }
  split; [lra|].
  assert (E' : (c - 1) * (cw + g) + cw == cw * c + (c - 1) * g) by ring.
  lra.
Qed.

Lemma cell_size_times_count (x : Q) (n : Z) :
  (0 < n)%Z -> x / inject_Z n * inject_Z n == x.
Proof.
  intros Hn. field. intro E.
  assert (H : inject_Z 0 < inject_Z n) by (rewrite <- Zlt_Qlt; exact Hn).
  rewrite E in H. apply (Qlt_irrefl 0 H).
Qed.

End LayoutFacts.

(** C7. For every constructed LayoutConfig the cell of an index is
    [row = (i // cols) mod rows], [col = i mod cols]; the map from index to
    cell is periodic with period [rows * cols]: the cell of [i] is the cell
    of [i mod (rows * cols)]; with rows = 2 and cols = 2 the indices 1 and 5
    have the same cell. *)
Theorem C7_cell_position_periodic (config : LayoutConfig) (i : Z) :
  LayoutConfig_ok config ->
  layout.get_cell_position config i
    = (((i / cols config) mod rows config)%Z, (i mod cols config)%Z) /\
  layout.get_cell_position config i
    = layout.get_cell_position config (i mod layout.items_per_page config)%Z /\
  (rows config = 2%Z -> cols config = 2%Z ->
   layout.get_cell_position config 1 = layout.get_cell_position config 5).
Proof.
  intros (Hr & Hc & _). split; [reflexivity|]. split.
  - unfold layout.get_cell_position, layout.items_per_page.
    rewrite (Z.mul_comm (rows config) (cols config)).
    rewrite (Z.rem_mul_r i (cols config) (rows config)) by lia.
    set (a := (i mod cols config)%Z).
    set (b := ((i / cols config) mod rows config)%Z).
    assert (Ha : (0 <= a < cols config)%Z) by (apply Z.mod_pos_bound; exact Hc).
    assert (Hb : (0 <= b < rows config)%Z) by (apply Z.mod_pos_bound; exact Hr).
    assert (Hdiv : ((a + cols config * b) / cols config = b)%Z).
    { replace (a + cols config * b)%Z with (b * cols config + a)%Z by lia.
      rewrite Z.div_add_l by lia.
      rewrite (Z.div_small a) by exact Ha. lia. }
    assert (Hmod : ((a + cols config * b) mod cols config = a)%Z).
    { replace (a + cols config * b)%Z with (a + b * cols config)%Z by lia.
      rewrite Z.mod_add by lia.
      apply Z.mod_small. exact Ha. }
    rewrite Hdiv, Hmod, (Z.mod_small b) by exact Hb. reflexivity.
  - intros E2 E2'. unfold layout.get_cell_position. rewrite E2, E2'. reflexivity.
Qed.

Lemma C7_cell_position_periodic_witness :
  layout.get_cell_position (mkLayoutConfig 2 3 portrait 20 10) (-7)
    = layout.get_cell_position (mkLayoutConfig 2 3 portrait 20 10)
        ((-7) mod layout.items_per_page (mkLayoutConfig 2 3 portrait 20 10))%Z.
Proof.
  apply (C7_cell_position_periodic (mkLayoutConfig 2 3 portrait 20 10) (-7)).
  unfold LayoutConfig_ok; cbn. repeat split; try lia; discriminate.
Defined.

(** ** Aspect ratio under rounding *)
Section RoundingFacts.






End RoundingFacts.
(** ** Rounding in binary64 *)
Section ShiftFacts.
Import SpecFloat.
Local Open Scope Z_scope.






End ShiftFacts.

Section RoundFacts.
Import SpecFloat.
Local Open Scope Z_scope.




End RoundFacts.

Section ValueFacts.
Import SpecFloat.
Local Open Scope Q_scope.









End ValueFacts.

Section MulFacts.
Import SpecFloat.
Local Open Scope Q_scope.



End MulFacts.

(** In binary64 the equality of the two quotients is not exact: for the
    2 x 2 grid and a 1 x 3 source the quotient of the scaled sides is
    0.33333333333333337 and the quotient of the source sides is
    0.3333333333333333. *)
Lemma aspect_ratio_is_rounded :
  let config := binary64.scenario.layout_2x2 in
  let r := binary64.scenario.rect_1x3 in
  PrimFloat.ltb (PrimFloat.div (binary64.width r) (binary64.height r))
                (PrimFloat.div (binary64.scaled_w config r) (binary64.scaled_h config r))
  = true.
Proof. vm_compute. reflexivity. Qed.



(** In exact arithmetic the formulas of [calculate_dest_rect] keep the
    content in its cell: for every constructed LayoutConfig whose cell width
    and height are positive, every source rectangle of positive width and
    height and every index, the scaled content is no larger than the cell,
    the centring offsets are not negative, and the destination rectangle
    lies in its cell and in the output page.  The floats of the code round
    after every operation and do not inherit this. *)
Lemma dest_rect_within_cell_exact
    (config : LayoutConfig) (r : fitz.Rect) (index : Z) :
  LayoutConfig_ok config ->
  0 < fst (layout.get_cell_size config) ->
  0 < snd (layout.get_cell_size config) ->
  0 < fitz.width r -> 0 < fitz.height r ->
  layout.scaled_w config r <= fst (layout.get_cell_size config) /\
  layout.scaled_h config r <= snd (layout.get_cell_size config) /\
  0 <= (fst (layout.get_cell_size config) - layout.scaled_w config r) / 2 /\
  0 <= (snd (layout.get_cell_size config) - layout.scaled_h config r) / 2 /\
  fitz.within (layout.calculate_dest_rect config r index)
              (layout.cell_rect config index) /\
  fitz.within (layout.calculate_dest_rect config r index)
              (layout.page_rect config).
Proof.
  intros (Hr & Hc & Hm & Hg) Hcw Hch Hw Hh.
  pose proof (scaled_w_le_cell config r Hw Hh) as Hsw.
  pose proof (scaled_h_le_cell config r Hw Hh) as Hsh.
  destruct (get_cell_position_range config index Hr Hc) as [Hrow Hcol].
  assert (Ew : fst (layout.get_cell_size config) * inject_Z (cols config)
               == fst (page_size config) - 2 * margin config
                  - (inject_Z (cols config) - 1) * gap config).
  { unfold layout.get_cell_size. destruct (page_size config) as [pw ph].
    cbn [fst snd]. rewrite cell_size_times_count by exact Hc.
    rewrite inject_Z_pred. reflexivity. }
  assert (Eh : snd (layout.get_cell_size config) * inject_Z (rows config)
               == snd (page_size config) - 2 * margin config
                  - (inject_Z (rows config) - 1) * gap config).
  { unfold layout.get_cell_size. destruct (page_size config) as [pw ph].
    cbn [fst snd]. rewrite cell_size_times_count by exact Hr.
    rewrite inject_Z_pred. reflexivity. }
  assert (Kc : 0 <= inject_Z (snd (layout.get_cell_position config index))
               /\ inject_Z (snd (layout.get_cell_position config index))
                  <= inject_Z (cols config) - 1).
  { split.
    - change 0 with (inject_Z 0). rewrite <- Zle_Qle. lia.
    - rewrite <- inject_Z_pred, <- Zle_Qle. lia. }
  assert (Kr : 0 <= inject_Z (fst (layout.get_cell_position config index))
               /\ inject_Z (fst (layout.get_cell_position config index))
                  <= inject_Z (rows config) - 1).
  { split.
    - change 0 with (inject_Z 0). rewrite <- Zle_Qle. lia.
    - rewrite <- inject_Z_pred, <- Zle_Qle. lia. }
  destruct (cell_on_axis _ _ _ _ _ _ Hm Hg Hcw (proj1 Kc) (proj2 Kc) Ew) as [Xlo Xhi].
  destruct (cell_on_axis _ _ _ _ _ _ Hm Hg Hch (proj1 Kr) (proj2 Kr) Eh) as [Ylo Yhi].
  unfold layout.calculate_dest_rect, layout.cell_rect, layout.page_rect, fitz.within.
  fold (layout.scaled_w config r). fold (layout.scaled_h config r).
  destruct (layout.get_cell_position config index) as [row col].
  destruct (layout.get_cell_size config) as [cw ch].
  destruct (page_size config) as [pw ph].
  cbn [fst snd fitz.x0 fitz.y0 fitz.x1 fitz.y1] in *.
  set (sw := layout.scaled_w config r) in *.
  set (sh := layout.scaled_h config r) in *.
  set (ox := inject_Z col * (cw + gap config)) in *.
  set (oy := inject_Z row * (ch + gap config)) in *.
  assert (Half : forall x : Q, x / 2 == x * (1 # 2)) by (intro x; field).
  rewrite !Half.
  repeat split; lra.
Qed.


(** C10 (the code departs from it). Two destination rectangles the code
    computes that leave their cell.  With [LayoutConfig()] (the 2 x 2 grid)
    and a 269 x 100 source, the scaled width 269 * (cell_w / 269) rounds to
    a float above the cell width, the centring offset is negative, and the
    rectangle starts to the left of its cell.  With one cell covering the
    whole page (margin 0) and a 595 x 100 source, the rectangle starts at
    -2^-44, to the left of the output page. *)
Theorem C10_rounding_leaves_cell :
  let zero := PrimFloat.zero in
  let config := binary64.scenario.layout_2x2 in
  let r := binary64.scenario.rect_269x100 in
  let d := binary64.calculate_dest_rect config r 0 in
  let whole_page := binary64.scenario.layout_1x1 in
  let wide := binary64.scenario.rect_595x100 in
  let d' := binary64.calculate_dest_rect whole_page wide 0 in
  (binary64.LayoutConfig_ok config /\
   PrimFloat.ltb zero (fst (binary64.get_cell_size config)) = true /\
   PrimFloat.ltb zero (snd (binary64.get_cell_size config)) = true /\
   PrimFloat.ltb zero (binary64.width r) = true /\
   PrimFloat.ltb zero (binary64.height r) = true /\
   PrimFloat.ltb (fst (binary64.get_cell_size config)) (binary64.scaled_w config r)
     = true /\
   PrimFloat.ltb (binary64.offset_x config r) zero = true /\
   PrimFloat.ltb (binary64.x0 d) (binary64.x0 (binary64.cell_rect config 0)) = true /\
   binary64.within d (binary64.cell_rect config 0) = false) /\
  (binary64.LayoutConfig_ok whole_page /\
   PrimFloat.ltb zero (fst (binary64.get_cell_size whole_page)) = true /\
   PrimFloat.ltb zero (snd (binary64.get_cell_size whole_page)) = true /\
   PrimFloat.ltb zero (binary64.width wide) = true /\
   PrimFloat.ltb zero (binary64.height wide) = true /\
   PrimFloat.ltb (fst (binary64.get_cell_size whole_page))
                 (binary64.scaled_w whole_page wide) = true /\
   PrimFloat.ltb (binary64.x0 d') zero = true /\
   binary64.within d' (binary64.cell_rect whole_page 0) = false /\
   binary64.within d' (binary64.page_rect whole_page) = false).
Proof.
  cbv zeta. unfold binary64.LayoutConfig_ok.
  split; repeat split; vm_compute; reflexivity.
Qed.

(** ** Crop rectangles *)
Section RectFacts.

Lemma within_refl (r : fitz.Rect) : fitz.within r r.
Proof. unfold fitz.within. repeat split; apply Qle_refl. Qed.

Lemma is_empty_false (r : fitz.Rect) :
  fitz.is_empty r = false <-> fitz.x0 r < fitz.x1 r /\ fitz.y0 r < fitz.y1 r.
Proof.
  unfold fitz.is_empty. rewrite orb_false_iff.
  split.
  - intros [Hx Hy]. split; apply Qnot_le_lt; intro L;
      apply Qle_bool_iff in L; congruence.
  - intros [Hx Hy]. split.
    + destruct (Qle_bool (fitz.x1 r) (fitz.x0 r)) eqn:E; [|reflexivity].
      apply Qle_bool_iff in E. exfalso. apply (Qlt_not_le _ _ Hx E).
    + destruct (Qle_bool (fitz.y1 r) (fitz.y0 r)) eqn:E; [|reflexivity].
      apply Qle_bool_iff in E. exfalso. apply (Qlt_not_le _ _ Hy E).
Qed.

(** [a & b] lies in [b] as soon as [a] is not empty. *)
Lemma and_within_r (a b : fitz.Rect) :
  fitz.is_empty a = false -> fitz.within (fitz.and a b) b.
Proof.
  intros Ha. unfold fitz.and.
  destruct (fitz.is_empty b); [apply within_refl|].
  rewrite Ha. unfold fitz.within. cbn.
  repeat split; first [apply Q.le_max_r | apply Q.le_min_r].
Qed.

Lemma width_of_nonempty (r : fitz.Rect) :
  fitz.is_empty r = false -> 0 < fitz.width r /\ 0 < fitz.height r.
Proof.
  intros H. apply is_empty_false in H. destruct H as [Hx Hy].
  unfold fitz.width, fitz.height. split.
  - apply Qlt_le_trans with (fitz.x1 r - fitz.x0 r); [lra | apply Q.le_max_r].
  - apply Qlt_le_trans with (fitz.y1 r - fitz.y0 r); [lra | apply Q.le_max_r].
Qed.

End RectFacts.

(** C3. For every manual region with [0 <= x0 < x1 <= 1] and
    [0 <= y0 < y1 <= 1] and every page, the rectangle that crop mode manual
    resolves to (the region scaled by the page's width and height, then
    intersected with the page rectangle) lies within the page rectangle. *)
Theorem C3_manual_crop_within_page (page : cropper.Page) (norm : Q * Q * Q * Q) :
  manual_norm_ok norm ->
  fitz.within (cropper._manual_crop page norm) (cropper.rect page) /\
  (forall (config : CropConfig) (doc : cropper.Document) (item : InvoiceItem),
     crop_mode item = manual -> manual_norm item = Some norm ->
     cropper.get_page doc (page_index item) = Some page ->
     cropper.compute_crop_rect config doc (page_index item) item
       = Some (cropper._manual_crop page norm)).
Proof.
  intros Hn. split.
  - destruct norm as [[[nx0 ny0] nx1] ny1].
    destruct Hn as (Hx0 & Hx & Hx1 & Hy0 & Hy & Hy1).
    unfold cropper._manual_crop.
    destruct (fitz.is_empty (cropper.rect page)) eqn:Ep.
    + unfold fitz.and. rewrite Ep. apply within_refl.
    + apply and_within_r.
      destruct (width_of_nonempty _ Ep) as [Hw Hh].
      apply is_empty_false. cbn. split.
      * apply Qmult_lt_compat_r; assumption.
      * apply Qmult_lt_compat_r; assumption.
  - intros config doc item Hmode Hnorm Hpage.
    unfold cropper.compute_crop_rect. rewrite Hpage, Hmode, Hnorm. reflexivity.
Qed.

Lemma C3_manual_crop_within_page_witness :
  let page := cropper.mkPage (fitz.mkRect 0 0 200 100) fitz.Rect0 fitz.Rect0 in
  fitz.within
    (cropper._manual_crop page (1 # 4, 1 # 4, 3 # 4, 1))
    (cropper.rect page).
Proof.
  cbv zeta.
  apply (C3_manual_crop_within_page
           (cropper.mkPage (fitz.mkRect 0 0 200 100) fitz.Rect0 fitz.Rect0)
           (1 # 4, 1 # 4, 3 # 4, 1)).
  unfold manual_norm_ok. repeat split; vm_compute; congruence.
Defined.


Section AutoCrop.
Variable config : CropConfig.
Variable page : cropper.Page.

Lemma object_tier_failed_iff :
  fitz.is_empty (cropper.object_bounds page)
    || negb (Qle_bool 100 (fitz.get_area (cropper.object_bounds page))) = true
  <-> cropper.object_tier_failed page.
Proof.
  unfold cropper.object_tier_failed. rewrite orb_true_iff, negb_true_iff.
  split; (intros [H | H]; [left; exact H | right]).
  - apply Qnot_le_lt. intro L. apply Qle_bool_iff in L. congruence.
  - destruct (Qle_bool 100 _) eqn:E; [|reflexivity].
    apply Qle_bool_iff in E. exfalso. apply (Qlt_not_le _ _ H E).
Qed.

Lemma auto_crop_run_cases :
  cropper._auto_crop_run config page =
    if fitz.is_empty (cropper.object_bounds page)
       || negb (Qle_bool 100 (fitz.get_area (cropper.object_bounds page)))
    then
      if fitz.is_empty (cropper.pixel_bounds page)
      then (cropper.rect page,
            [cropper.DetectObject; cropper.DetectPixel; cropper.ReturnFullPage])
      else (fitz.and (cropper._expand_rect (cropper.pixel_bounds page)
                        (auto_margin config)) (cropper.rect page),
            [cropper.DetectObject; cropper.DetectPixel; cropper.ExpandAndClamp])
    else
      if fitz.is_empty (cropper.object_bounds page)
      then (cropper.rect page, [cropper.DetectObject; cropper.ReturnFullPage])
      else (fitz.and (cropper._expand_rect (cropper.object_bounds page)
                        (auto_margin config)) (cropper.rect page),
            [cropper.DetectObject; cropper.ExpandAndClamp]).
Proof.
  unfold cropper._auto_crop_run.
  destruct (fitz.is_empty (cropper.object_bounds page)
            || negb (Qle_bool 100 (fitz.get_area (cropper.object_bounds page)))).
  - destruct (fitz.is_empty (cropper.pixel_bounds page)); reflexivity.
  - destruct (fitz.is_empty (cropper.object_bounds page)); reflexivity.
Qed.

Lemma expand_nonempty (r : fitz.Rect) (m : Q) :
  0 <= m -> fitz.is_empty r = false ->
  fitz.is_empty (cropper._expand_rect r m) = false.
Proof.
  intros Hm H. apply is_empty_false in H. destruct H as [Hx Hy].
  apply is_empty_false. cbn. split; lra.
Qed.

End AutoCrop.

(** The claim of C9 fails where the object tier finds a small rectangle and
    the pixel tier finds nothing: the page rectangle is returned through the
    full-page fallback although the object-based union is not empty. *)
Lemma C9_small_object_bounds_counterexample :
  let page := cropper.mkPage (fitz.mkRect 0 0 100 100)
                             (fitz.mkRect 10 10 15 15) fitz.Rect0 in
  fitz.is_empty (cropper.object_bounds page) = false /\
  cropper._auto_crop_run CropConfig_default page
    = (cropper.rect page,
       [cropper.DetectObject; cropper.DetectPixel; cropper.ReturnFullPage]).
Proof. cbv zeta. split; vm_compute; reflexivity. Qed.

(** C9 (amended). Pixel-based detection runs exactly when the object-based
    union is empty or has area below 100; the page rectangle is returned
    unmodified exactly when pixel-based detection ran and found nothing (the
    object-based union being empty or smaller than 100 and discarded);
    otherwise the rectangle in force (the object-based union if the pixel
    tier did not run, the pixel-based one if it did) is not empty, is
    expanded by [auto_margin] on its four sides and intersected with the
    page rectangle, and the result lies within the page rectangle. *)
Theorem C9_auto_crop_chain (config : CropConfig) (page : cropper.Page) :
  CropConfig_ok config ->
  let run := cropper._auto_crop_run config page in
  (In cropper.DetectPixel (snd run) <-> cropper.object_tier_failed page) /\
  (In cropper.ReturnFullPage (snd run) <->
     cropper.object_tier_failed page /\
     fitz.is_empty (cropper.pixel_bounds page) = true) /\
  (In cropper.ReturnFullPage (snd run) -> fst run = cropper.rect page) /\
  (~ In cropper.ReturnFullPage (snd run) ->
     fitz.is_empty (cropper.detected page) = false /\
     fst run = fitz.and (cropper._expand_rect (cropper.detected page)
                           (auto_margin config))
                        (cropper.rect page) /\
     fitz.within (fst run) (cropper.rect page)).
Proof.
  intros (_ & _ & Hm & _) run. subst run.
  rewrite auto_crop_run_cases. unfold cropper.detected.
  pose proof (object_tier_failed_iff page) as Hf.
  destruct (fitz.is_empty (cropper.object_bounds page)
            || negb (Qle_bool 100 (fitz.get_area (cropper.object_bounds page))))
    eqn:Et.
  - assert (F : cropper.object_tier_failed page) by (apply Hf; reflexivity).
    destruct (fitz.is_empty (cropper.pixel_bounds page)) eqn:Ep; cbn [fst snd].
    + split; [cbn; tauto|]. split; [cbn; tauto|]. split; [reflexivity|].
      intros H. exfalso. apply H. cbn. tauto.
    + split; [cbn; tauto|]. split.
      { split.
        - cbn. intros [H | [H | [H | []]]]; discriminate.
        - intros [_ H]. discriminate. }
      split.
      { cbn. intros [H | [H | [H | []]]]; discriminate. }
      intros _. split; [reflexivity|]. split; [reflexivity|].
      apply and_within_r, expand_nonempty; assumption.
  - assert (F : ~ cropper.object_tier_failed page).
    { intro F. apply Hf in F. discriminate. }
    apply orb_false_iff in Et. destruct Et as [Eo _]. rewrite Eo. cbn [fst snd].
    split.
    { split; [|tauto]. cbn. intros [H | [H | []]]; discriminate. }
    split.
    { split; [|tauto]. cbn. intros [H | [H | []]]; discriminate. }
    split.
    { cbn. intros [H | [H | []]]; discriminate. }
    intros _. split; [reflexivity|]. split; [reflexivity|].
    apply and_within_r, expand_nonempty; assumption.
Qed.

Lemma C9_auto_crop_chain_witness :
  let page := cropper.mkPage (fitz.mkRect 0 0 100 100)
                             (fitz.mkRect 10 10 15 15) (fitz.mkRect 5 5 60 60) in
  fitz.within (fst (cropper._auto_crop_run CropConfig_default page))
              (cropper.rect page).
Proof.
  cbv zeta.
  apply (C9_auto_crop_chain CropConfig_default
           (cropper.mkPage (fitz.mkRect 0 0 100 100)
                           (fitz.mkRect 10 10 15 15) (fitz.mkRect 5 5 60 60))).
  - unfold CropConfig_ok. cbn. repeat split; try lia; vm_compute; congruence.
  - vm_compute. intros [H | [H | [H | []]]]; discriminate.
Defined.

(** ** The merge pipeline *)
Section PageArithmetic.
Variables n idx : Z.
Hypothesis n_pos : (0 < n)%Z.

Lemma page_start : (idx mod n = 0 -> (idx + n - 1) / n = idx / n)%Z.
Proof. intros H. Z.to_euclidean_division_equations. nia. Qed.

Lemma page_inside : (idx mod n <> 0 -> (idx + n - 1) / n = idx / n + 1)%Z.
Proof. intros H. Z.to_euclidean_division_equations. nia. Qed.

Lemma page_next : ((idx + 1 + n - 1) / n = idx / n + 1)%Z.
Proof. Z.to_euclidean_division_equations. nia. Qed.

Lemma page_same : ((idx + 1) mod n <> 0 -> (idx + 1) / n = idx / n)%Z.
Proof. intros H. Z.to_euclidean_division_equations. nia. Qed.
End PageArithmetic.

Section TraceFacts.
Import merger.

Lemma open_handles_app (e1 e2 : list Event) :
  forall acc, open_handles acc (e1 ++ e2) = open_handles (open_handles acc e1) e2.
Proof.
  induction e1 as [|e e1 IH]; intros acc; [reflexivity|].
  destruct e; cbn; apply IH.
Qed.

Lemma open_handles_close_all (opened_docs : Cache) :
  forall acc,
    (forall q, In q acc -> In q (map fst opened_docs)) ->
    open_handles acc (map (fun kd => CloseDocument (fst kd)) opened_docs) = [].
Proof.
  induction opened_docs as [|[k d] rest IH]; intros acc Hacc.
  - destruct acc as [|q acc]; [reflexivity|].
    exfalso. apply (Hacc q). left. reflexivity.
  - cbn. apply IH. intros q Hq. apply filter_In in Hq. destruct Hq as [Hin Hne].
    destruct (Hacc q Hin) as [E | Hrest]; [|exact Hrest].
    cbn in E. subst k. rewrite String.eqb_refl in Hne. discriminate.
Qed.

Lemma placed_app (e1 e2 : list Event) : placed (e1 ++ e2) = placed e1 ++ placed e2.
Proof. unfold placed. apply filter_app. Qed.

Lemma cache_get_snoc (opened_docs : Cache) (p q : string) (d : cropper.Document) :
  cache_get (opened_docs ++ [(p, d)]) q =
    match cache_get opened_docs q with
    | Some x => Some x
    | None => if String.eqb p q then Some d else None
    end.
Proof.
  induction opened_docs as [|[k x] rest IH]; cbn; [reflexivity|].
  destruct (String.eqb k q); [reflexivity | exact IH].
Qed.

End TraceFacts.

Section MergeFacts.
Import merger.
Variable engine : Engine.
Variable layout_config : LayoutConfig.

Lemma cache_ok_snoc (opened_docs : Cache) (p : string) (d : cropper.Document) :
  cache_ok engine opened_docs -> open_document engine p = Some d ->
  cache_ok engine (opened_docs ++ [(p, d)]).
Proof.
  intros Hok Hp q x. rewrite cache_get_snoc.
  destruct (cache_get opened_docs q) eqn:Eq.
  - intros E. injection E as <-. apply Hok. exact Eq.
  - destruct (String.eqb p q) eqn:Epq; [|discriminate].
    apply String.eqb_eq in Epq. subst q. intros E. injection E as <-. exact Hp.
Qed.

Hypothesis no_raise : layout.raises_zero_division layout_config = false.

(** One item: the cache grows only at its end and stays sound, the
    handles opened are the ones added to it, and no exception leaves. *)
Lemma place_item_cache (current_page : option Z) (opened_docs : Cache)
    (item : InvoiceItem) (cell_index : Z) :
  cache_ok engine opened_docs ->
  let run := place_item engine layout_config current_page opened_docs
               item cell_index in
  item_raised run = false /\
  exists new,
    item_cache run = opened_docs ++ new /\
    cache_ok engine (opened_docs ++ new) /\
    (forall acc, open_handles acc (item_events run) = acc ++ map fst new).
Proof.
  intros Hok. unfold place_item. rewrite no_raise.
  destruct (cache_get opened_docs (path item)) as [d|] eqn:Eg.
  - destruct (cropper.compute_crop_rect cropper_config d (page_index item) item);
      [destruct current_page as [pg|];
       [destruct (show_pdf_page engine pg (path item) (page_index item) _ _)|]|];
      (split; [reflexivity|]); exists []; rewrite app_nil_r;
      repeat split; auto; intros acc; cbn; symmetry; apply app_nil_r.
  - destruct (open_document engine (path item)) as [d|] eqn:Eo.
    + pose proof (cache_ok_snoc _ _ _ Hok Eo) as Hok'.
      destruct (cropper.compute_crop_rect cropper_config d (page_index item) item);
        [destruct current_page as [pg|];
         [destruct (show_pdf_page engine pg (path item) (page_index item) _ _)|]|];
        (split; [reflexivity|]); exists [(path item, d)]; repeat split; auto.
    + split; [reflexivity|]. exists []. rewrite app_nil_r.
      repeat split; auto. intros acc. cbn. symmetry. apply app_nil_r.
Qed.

(** One item: its compositions are those of the per-item view. *)
Lemma place_item_placed (pg : Z) (opened_docs : Cache)
    (item : InvoiceItem) (cell_index : Z) :
  cache_ok engine opened_docs ->
  placed (item_events (place_item engine layout_config (Some pg) opened_docs
                         item cell_index))
    = placement_at engine layout_config pg cell_index item.
Proof.
  intros Hok. unfold place_item, placement_at. rewrite no_raise.
  destruct (cache_get opened_docs (path item)) as [d|] eqn:Eg.
  - rewrite (Hok _ _ Eg).
    destruct (cropper.compute_crop_rect cropper_config d (page_index item) item);
      [|reflexivity].
    destruct (show_pdf_page engine pg (path item) (page_index item) _ _); reflexivity.
  - destruct (open_document engine (path item)) as [d|]; [|reflexivity].
    destruct (cropper.compute_crop_rect cropper_config d (page_index item) item);
      [|reflexivity].
    destruct (show_pdf_page engine pg (path item) (page_index item) _ _); reflexivity.
Qed.

(** One item adds no page, composes at most once, and only onto the
    current page. *)
Lemma place_item_events (pg : Z) (opened_docs : Cache)
    (item : InvoiceItem) (cell_index : Z) :
  let evs := item_events (place_item engine layout_config (Some pg) opened_docs
                            item cell_index) in
  filter is_add_page evs = [] /\ (List.length (placed evs) <= 1)%nat /\
  Forall (on_page pg) evs.
Proof.
  unfold place_item. rewrite no_raise.
  destruct (cache_get opened_docs (path item)) as [d|].
  - destruct (cropper.compute_crop_rect cropper_config d (page_index item) item);
      [|cbn; auto].
    destruct (show_pdf_page engine pg (path item) (page_index item) _ _);
      cbn; repeat split; auto; repeat constructor.
  - destruct (open_document engine (path item)) as [d|]; [|cbn; auto].
    destruct (cropper.compute_crop_rect cropper_config d (page_index item) item);
      [|cbn; repeat split; auto; repeat constructor].
    destruct (show_pdf_page engine pg (path item) (page_index item) _ _);
      cbn; repeat split; auto; repeat constructor.
Qed.

End MergeFacts.

Section ScanFacts.
Import merger.
Variable engine : Engine.
Variable layout_config : LayoutConfig.
Variable total : Z.
Variable progress_callback : bool.
Variable cancel_check : option (Z -> bool).

Hypothesis capacity_pos : (0 < layout.items_per_page layout_config)%Z.
Hypothesis no_cancel : never_cancelled cancel_check.

Lemma layout_does_not_raise : layout.raises_zero_division layout_config = false.
Proof.
  unfold layout.raises_zero_division, layout.items_per_page in *.
  apply orb_false_iff. split; apply Z.eqb_neq; nia.
Qed.

Lemma poll_false (idx : Z) :
  match cancel_check with Some poll => poll idx | None => false end = false.
Proof.
  destruct cancel_check as [poll|]; [apply no_cancel | reflexivity].
Qed.

(** A scan that is never cancelled runs to its end; the handles it opens
    are the ones it adds to the cache; its compositions are those of the
    per-item view, item by item. *)
Lemma scan_completes (items : list InvoiceItem) :
  forall idx current_page pages opened_docs,
    cache_ok engine opened_docs ->
    page_inv layout_config idx current_page pages ->
    exists new,
      snd (scan engine layout_config total progress_callback cancel_check
             items idx current_page pages opened_docs)
        = Scanned (opened_docs ++ new) /\
      (forall acc,
         open_handles acc
           (fst (scan engine layout_config total progress_callback cancel_check
                   items idx current_page pages opened_docs))
         = acc ++ map fst new) /\
      placed (fst (scan engine layout_config total progress_callback cancel_check
                     items idx current_page pages opened_docs))
        = placements engine layout_config items idx.
Proof.
  induction items as [|item rest IH]; intros idx current_page pages opened_docs Hok Hinv.
  - exists []. cbn. rewrite app_nil_r. repeat split; auto.
    intros acc. symmetry. apply app_nil_r.
  - cbn [scan placements]. rewrite poll_false.
    destruct (Z.eqb_spec (layout.items_per_page layout_config) 0) as [E0 | _];
      [lia|].
    destruct (page_size layout_config) as [page_w page_h].
    destruct Hinv as [Hpages Hcur].
    set (n := layout.items_per_page layout_config) in *.
    assert (Hnext : page_inv layout_config (idx + 1)
                      (Some (idx / n)%Z) (idx / n + 1)%Z).
    { split; fold n.
      - symmetry. apply page_next. exact capacity_pos.
      - intros Hne. f_equal. symmetry. apply page_same; assumption. }
    assert (Hstep :
              (if (idx mod n =? 0)%Z
               then ([AddPage page_w page_h], Some pages, (pages + 1)%Z)
               else ([], current_page, pages))
              = (if (idx mod n =? 0)%Z then [AddPage page_w page_h] else [],
                 Some (idx / n)%Z, (idx / n + 1)%Z)).
    { destruct (Z.eqb_spec (idx mod n) 0) as [Em | Em].
      - rewrite Hpages, page_start by assumption. reflexivity.
      - rewrite (Hcur Em), Hpages, page_inside by assumption. reflexivity. }
    cbv beta iota zeta. fold n. rewrite Hstep. clear Hstep.
    pose proof (place_item_cache engine layout_config layout_does_not_raise
                  (Some (idx / n)%Z) opened_docs item (idx mod n)%Z Hok) as Hc1.
    pose proof (place_item_placed engine layout_config layout_does_not_raise
                  (idx / n)%Z opened_docs item (idx mod n)%Z Hok) as Hp1.
    cbv zeta in Hc1.
    destruct (place_item engine layout_config (Some (idx / n)%Z) opened_docs item
                (idx mod n)%Z) as [ev_item opened1 raised].
    cbn [item_events item_cache item_raised] in Hc1, Hp1 |- *.
    destruct Hc1 as (-> & new1 & -> & Hok1 & Hh1).
    destruct (IH (idx + 1)%Z (Some (idx / n)%Z) (idx / n + 1)%Z
                 (opened_docs ++ new1) Hok1 Hnext) as (new2 & Es & Hh2 & Hp2).
    destruct (scan engine layout_config total progress_callback cancel_check rest
                (idx + 1) (Some (idx / n)%Z) (idx / n + 1) (opened_docs ++ new1))
      as [ev_rest fin].
    cbn [fst snd] in Es, Hh2, Hp2 |- *. subst fin.
    exists (new1 ++ new2). rewrite app_assoc. split; [reflexivity|]. split.
    + intros acc. rewrite !open_handles_app, Hh1, Hh2.
      destruct progress_callback, (idx mod n =? 0)%Z; cbn;
        rewrite map_app, app_assoc; reflexivity.
    + rewrite !placed_app, Hp1, Hp2.
      destruct progress_callback, (idx mod n =? 0)%Z; reflexivity.
Qed.

End ScanFacts.

Section RunFacts.
Import merger.
Variable engine : Engine.
Variable layout_config : LayoutConfig.

Lemma items_per_page_pos :
  LayoutConfig_ok layout_config -> (0 < layout.items_per_page layout_config)%Z.
Proof. intros (Hr & Hc & _). unfold layout.items_per_page. nia. Qed.

Lemma page_inv_start :
  (0 < layout.items_per_page layout_config)%Z -> page_inv layout_config 0 None 0.
Proof.
  intros Hn. split.
  - symmetry. apply Z.div_small. lia.
  - intros H. exfalso. apply H. apply Z.mod_0_l. lia.
Qed.

Lemma cache_ok_nil : cache_ok engine [].
Proof. intros p d H. discriminate. Qed.

Lemma placed_create (evs : list Event) :
  placed (CreateOutputDocument :: evs) = placed evs.
Proof. reflexivity. Qed.

Lemma placed_closing (output_path : string) (opened_docs : Cache) :
  placed (SaveOutput output_path :: CloseOutput
            :: map (fun kd => CloseDocument (fst kd)) opened_docs) = [].
Proof. cbn. induction opened_docs as [|kd l IH]; [reflexivity | exact IH]. Qed.

(** A run that is not cancelled and whose save succeeds returns True, has
    composed what the per-item view says, and has closed every source
    handle it opened. *)
Lemma merge_completes (items : list InvoiceItem) (output_path : string)
    (progress_callback : bool) (cancel_check : option (Z -> bool)) :
  LayoutConfig_ok layout_config -> items <> [] ->
  never_cancelled cancel_check -> save engine output_path = true ->
  exists evs,
    merge_to_pdf engine layout_config items output_path progress_callback cancel_check
      = (ReturnSaved, evs) /\
    placed evs = placements engine layout_config items 0 /\
    open_handles [] evs = [].
Proof.
  intros Hcfg Hne Hcc Hsave.
  pose proof (items_per_page_pos Hcfg) as Hn.
  destruct items as [|item rest]; [congruence|].
  unfold merge_to_pdf.
  destruct (scan_completes engine layout_config
              (Z.of_nat (List.length (item :: rest))) progress_callback cancel_check
              Hn Hcc (item :: rest) 0%Z None 0%Z [] cache_ok_nil (page_inv_start Hn))
    as (new & Es & Hh & Hp).
  destruct (scan engine layout_config (Z.of_nat (List.length (item :: rest)))
              progress_callback cancel_check (item :: rest) 0 None 0 [])
    as [evs fin].
  cbn [fst snd] in Es, Hh, Hp. subst fin. rewrite Hsave. cbn [app] in Hh |- *.
  eexists. split; [reflexivity|]. split.
  - rewrite placed_create, placed_app, Hp, placed_closing. apply app_nil_r.
  - cbn [open_handles]. rewrite open_handles_app, Hh. cbn [app open_handles].
    apply open_handles_close_all. auto.
Qed.

Lemma placements_app (a b : list InvoiceItem) :
  forall idx,
    placements engine layout_config (a ++ b) idx
    = placements engine layout_config a idx
        ++ placements engine layout_config b (idx + Z.of_nat (List.length a))%Z.
Proof.
  induction a as [|x a IH]; intros idx.
  - cbn. rewrite Z.add_0_r. reflexivity.
  - cbn [app placements List.length]. rewrite IH, app_assoc.
    replace (idx + 1 + Z.of_nat (List.length a))%Z
      with (idx + Z.of_nat (S (List.length a)))%Z by lia.
    reflexivity.
Qed.

End RunFacts.

(** C1 (the code departs from it). Two runs of [merge_to_pdf] that return
    with a source handle still open: a run over two items cancelled at the
    second poll leaves through line 56 with the first item's handle open; a
    run whose save raises leaves through line 113 with both handles open. *)
Theorem C1_early_return_leaves_handles_open :
  let items := [scenario.item "a.pdf"; scenario.item "b.pdf"] in
  let cancelled :=
    merger.merge_to_pdf scenario.engine scenario.layout_2x2 items "out.pdf" false
      (Some (fun idx => (idx =? 1)%Z)) in
  let save_failed :=
    merger.merge_to_pdf scenario.engine_save_fails scenario.layout_2x2 items
      "out.pdf" false None in
  (fst cancelled = merger.ReturnCancelled /\
   merger.open_handles [] (snd cancelled) = ["a.pdf"%string]) /\
  (fst save_failed = merger.ReturnException /\
   merger.open_handles [] (snd save_failed) = ["a.pdf"%string; "b.pdf"%string]).
Proof. cbv zeta. repeat split; vm_compute; reflexivity. Qed.

(** C4. For the empty item list [merge_to_pdf] returns False at once: the
    run does nothing, so no output document is created and nothing is
    saved. *)
Theorem C4_empty_items_fail_without_output
    (engine : merger.Engine) (layout_config : LayoutConfig) (output_path : string)
    (progress_callback : bool) (cancel_check : option (Z -> bool)) :
  let run := merger.merge_to_pdf engine layout_config [] output_path
               progress_callback cancel_check in
  fst run = merger.ReturnEmpty /\ merger.returned (fst run) = false /\
  snd run = [] /\ filter merger.is_output (snd run) = [].
Proof. cbv zeta. repeat split. Qed.

(** The claim of C5 fails in its last clause: a run cancelled at the first
    poll returns False, the value a run over no items and a run whose save
    raises return as well, so no reading of the returned value reports
    Cancelled for the first and Failed for the others. *)
Lemma C5_no_cancelled_outcome_counterexample :
  let items := map scenario.item ["a.pdf"; "b.pdf"; "c.pdf"; "d.pdf"; "e.pdf"]%string in
  let cancelled :=
    merger.merge_to_pdf scenario.engine scenario.layout_2x2 items "out.pdf" true
      (Some (fun _ => true)) in
  let empty :=
    merger.merge_to_pdf scenario.engine scenario.layout_2x2 [] "out.pdf" true None in
  let save_failed :=
    merger.merge_to_pdf scenario.engine_save_fails scenario.layout_2x2 items
      "out.pdf" true None in
  merger.returned (fst cancelled) = false /\
  merger.returned (fst empty) = false /\
  merger.returned (fst save_failed) = false /\
  ~ (exists report : bool -> outcome.Outcome,
       report (merger.returned (fst cancelled)) = outcome.Cancelled /\
       (report (merger.returned (fst empty)) = outcome.Failed \/
        report (merger.returned (fst save_failed)) = outcome.Failed)).
Proof.
  cbv zeta. split; [vm_compute; reflexivity|].
  split; [vm_compute; reflexivity|]. split; [vm_compute; reflexivity|].
  intros (report & Hc & Hf).
  change (report false = outcome.Cancelled) in Hc.
  assert (E : merger.returned
                (fst (merger.merge_to_pdf scenario.engine_save_fails scenario.layout_2x2
                        (map scenario.item
                           ["a.pdf"; "b.pdf"; "c.pdf"; "d.pdf"; "e.pdf"]%string)
                        "out.pdf" true None)) = false)
    by (vm_compute; reflexivity).
  rewrite E in Hf. change (report false = outcome.Failed \/ report false = outcome.Failed) in Hf.
  rewrite Hc in Hf. destruct Hf as [Hf | Hf]; discriminate.
Qed.

(** C5 (amended). For every non-empty item list, if the cancellation
    predicate answers true at the first poll, the run returns False, the
    value a run over no items returns, having only created the output
    document: no progress report, no page, no source opened, nothing
    composed. *)
Theorem C5_cancel_before_first_item
    (engine : merger.Engine) (layout_config : LayoutConfig)
    (items : list InvoiceItem) (output_path : string)
    (progress_callback : bool) (poll : Z -> bool) :
  items <> [] -> poll 0%Z = true ->
  let run := merger.merge_to_pdf engine layout_config items output_path
               progress_callback (Some poll) in
  merger.returned (fst run) = false /\
  merger.returned (fst run)
  = merger.returned (fst (merger.merge_to_pdf engine layout_config [] output_path
                            progress_callback (Some poll))) /\
  snd run = [merger.CreateOutputDocument] /\
  filter merger.is_open (snd run) = [] /\ merger.placed (snd run) = [].
Proof.
  intros Hne Hpoll. destruct items as [|item rest]; [congruence|].
  cbv zeta. unfold merger.merge_to_pdf. cbn [merger.scan]. rewrite Hpoll.
  repeat split.
Qed.

Lemma C5_cancel_before_first_item_witness :
  snd (merger.merge_to_pdf scenario.engine scenario.layout_2x2
         (map scenario.item ["a.pdf"; "b.pdf"; "c.pdf"; "d.pdf"; "e.pdf"]%string)
         "out.pdf" true (Some (fun _ => true)))
  = [merger.CreateOutputDocument].
Proof.
  apply (C5_cancel_before_first_item scenario.engine scenario.layout_2x2
           (map scenario.item ["a.pdf"; "b.pdf"; "c.pdf"; "d.pdf"; "e.pdf"]%string)
           "out.pdf" true (fun _ => true)).
  - discriminate.
  - reflexivity.
Defined.

(** C6. In a run that is not cancelled and whose save succeeds, an item one
    of whose three stages fails (the source does not open, the crop
    rectangle does not resolve, or the composition fails) contributes no
    composition and changes nothing for the others: the compositions of the
    run are, in order, those of every item taken alone at its own page and
    cell, and the run returns True.  In particular a run over three items
    whose second source does not open returns True with the compositions of
    items 1 and 3. *)
Theorem C6_failed_item_is_skipped
    (engine : merger.Engine) (layout_config : LayoutConfig)
    (items : list InvoiceItem) (output_path : string)
    (progress_callback : bool) (cancel_check : option (Z -> bool)) :
  LayoutConfig_ok layout_config -> items <> [] ->
  merger.never_cancelled cancel_check -> merger.save engine output_path = true ->
  let run := merger.merge_to_pdf engine layout_config items output_path
               progress_callback cancel_check in
  let n := layout.items_per_page layout_config in
  fst run = merger.ReturnSaved /\ merger.returned (fst run) = true /\
  merger.placed (snd run) = merger.placements engine layout_config items 0 /\
  (forall pg cell item,
     merger.open_document engine (path item) = None \/
     (exists d, merger.open_document engine (path item) = Some d /\
        cropper.compute_crop_rect merger.cropper_config d (page_index item) item = None) \/
     (exists d crop, merger.open_document engine (path item) = Some d /\
        cropper.compute_crop_rect merger.cropper_config d (page_index item) item
          = Some crop /\
        merger.show_pdf_page engine pg (path item) (page_index item)
          (layout.calculate_dest_rect layout_config crop cell) crop = false) ->
     merger.placement_at engine layout_config pg cell item = []) /\
  (forall before item after,
     items = before ++ item :: after ->
     merger.placement_at engine layout_config
       (Z.of_nat (List.length before) / n) (Z.of_nat (List.length before) mod n) item = [] ->
     merger.placed (snd run)
     = merger.placements engine layout_config before 0
         ++ merger.placements engine layout_config after
              (Z.of_nat (List.length before) + 1)) /\
  (forall item1 item2 item3,
     items = [item1; item2; item3] ->
     merger.open_document engine (path item2) = None ->
     merger.placed (snd run)
     = merger.placement_at engine layout_config (0 / n) (0 mod n) item1
         ++ merger.placement_at engine layout_config (2 / n) (2 mod n) item3).
Proof.
  intros Hcfg Hne Hcc Hsave run n.
  destruct (merge_completes engine layout_config items output_path progress_callback
              cancel_check Hcfg Hne Hcc Hsave) as (evs & Erun & Hplaced & _).
  subst run. rewrite Erun. cbn [fst snd].
  split; [reflexivity|]. split; [reflexivity|]. split; [exact Hplaced|].
  split; [|split].
  - intros pg cell item [Ho | [(d & Ho & Hc) | (d & crop & Ho & Hc & Hs)]];
      unfold merger.placement_at; rewrite Ho; try rewrite Hc; try rewrite Hs;
      reflexivity.
  - intros before item after -> Hskip. rewrite Hplaced, placements_app.
    cbn [merger.placements]. rewrite Z.add_0_l. fold n. rewrite Hskip. reflexivity.
  - intros item1 item2 item3 -> Ho. rewrite Hplaced. cbn [merger.placements].
    fold n. unfold merger.placement_at at 2. rewrite Ho. cbn [app].
    rewrite app_nil_r. reflexivity.
Qed.

Lemma C6_failed_item_is_skipped_witness :
  let run := merger.merge_to_pdf scenario.engine scenario.layout_2x2
               (map scenario.item ["a.pdf"; "missing.pdf"; "c.pdf"]%string)
               "out.pdf" true None in
  fst run = merger.ReturnSaved /\
  map (fun e => match e with merger.ShowPdfPage _ src _ _ _ => src | _ => ""%string end)
      (merger.placed (snd run)) = ["a.pdf"; "c.pdf"]%string.
Proof.
  cbv zeta. split.
  - apply (C6_failed_item_is_skipped scenario.engine scenario.layout_2x2
             (map scenario.item ["a.pdf"; "missing.pdf"; "c.pdf"]%string)
             "out.pdf" true None).
    + unfold LayoutConfig_ok. cbn. repeat split; try lia; discriminate.
    + discriminate.
    + exact I.
    + reflexivity.
  - vm_compute. reflexivity.
Defined.

Section PreviewFacts.
Import merger.
Variable engine : Engine.
Variable layout_config : LayoutConfig.

Lemma length_slice_to (A : Type) (l : list A) (k : Z) :
  (List.length (slice_to l k) <= List.length l)%nat /\
  ((0 <= k)%Z -> (Z.of_nat (List.length (slice_to l k)) <= k)%Z).
Proof.
  unfold slice_to. destruct (Z.ltb_spec k 0) as [Hk | Hk];
    rewrite length_firstn; split; lia.
Qed.

Lemma closing_events (opened_docs : Cache) :
  let evs := map (fun kd => CloseDocument (fst kd)) opened_docs in
  filter is_add_page evs = [] /\ placed evs = [] /\ forall pg, Forall (on_page pg) evs.
Proof.
  induction opened_docs as [|kd l (Ha & Hp & Hf)]; cbn.
  - repeat split; auto.
  - repeat split; auto. intros pg. constructor; [exact I | apply Hf].
Qed.

Hypothesis no_raise : layout.raises_zero_division layout_config = false.

(** The preview loop runs to its end, adds no page, composes at most once
    per item, and only onto its single page. *)
Lemma preview_scan_events (items : list InvoiceItem) :
  forall idx pg opened_docs,
    cache_ok engine opened_docs ->
    let run := preview_scan engine layout_config items idx pg opened_docs in
    (exists opened_docs', snd run = Some opened_docs') /\
    filter is_add_page (fst run) = [] /\
    (List.length (placed (fst run)) <= List.length items)%nat /\
    Forall (on_page pg) (fst run).
Proof.
  induction items as [|item rest IH]; intros idx pg opened_docs Hok.
  - cbn. repeat split; eauto.
  - cbn [preview_scan].
    pose proof (place_item_events engine layout_config no_raise pg opened_docs item idx)
      as (Ha1 & Hl1 & Hf1).
    pose proof (place_item_cache engine layout_config no_raise (Some pg)
                  opened_docs item idx Hok) as Hc1.
    cbv zeta in Hc1.
    destruct (place_item engine layout_config (Some pg) opened_docs item idx)
      as [ev_item opened1 raised].
    cbn [item_events item_cache item_raised] in *.
    destruct Hc1 as (-> & new1 & -> & Hok1 & _).
    specialize (IH (idx + 1)%Z pg (opened_docs ++ new1) Hok1). cbv zeta in IH.
    destruct (preview_scan engine layout_config rest (idx + 1) pg (opened_docs ++ new1))
      as [ev_rest fin].
    cbn [fst snd] in *. destruct IH as (Hfin & Ha2 & Hl2 & Hf2).
    split; [exact Hfin|]. split; [|split].
    + rewrite filter_app, Ha1, Ha2. reflexivity.
    + rewrite placed_app, length_app. cbn [List.length]. lia.
    + apply Forall_app. split; assumption.
Qed.

End PreviewFacts.

(** What [generate_preview_page] does keep: for every non-empty item list
    it returns a document with exactly one page and composes only onto that
    page, at most once per item; with [max_items] omitted it composes at
    most [items_per_page] items, and with a [max_items >= 0] at most
    [max_items] items. *)
Lemma preview_single_page
    (engine : merger.Engine) (layout_config : LayoutConfig)
    (items : list InvoiceItem) (max_items : option Z) :
  LayoutConfig_ok layout_config -> items <> [] ->
  let run := merger.generate_preview_page engine layout_config items max_items in
  fst run = true /\
  List.length (filter merger.is_add_page (snd run)) = 1%nat /\
  Forall (merger.on_page 0) (snd run) /\
  (List.length (merger.placed (snd run)) <= List.length items)%nat /\
  (max_items = None ->
   (Z.of_nat (List.length (merger.placed (snd run)))
    <= layout.items_per_page layout_config)%Z) /\
  (forall m, max_items = Some m -> (0 <= m)%Z ->
   (Z.of_nat (List.length (merger.placed (snd run))) <= m)%Z).
Proof.
  intros Hcfg Hne run. subst run.
  pose proof (items_per_page_pos layout_config Hcfg) as Hn.
  destruct items as [|item rest]; [congruence|].
  unfold merger.generate_preview_page.
  set (items := item :: rest).
  set (k := Z.min (match max_items with
                   | Some m => m
                   | None => layout.items_per_page layout_config
                   end) (Z.of_nat (List.length items))).
  destruct (length_slice_to InvoiceItem items k) as [Hlen Hk].
  destruct (page_size layout_config) as [page_w page_h].
  pose proof (preview_scan_events engine layout_config
                (layout_does_not_raise layout_config Hn) (merger.slice_to items k)
                0%Z 0%Z [] (cache_ok_nil engine)) as Hev.
  cbv zeta in Hev.
  destruct (merger.preview_scan engine layout_config (merger.slice_to items k) 0 0 [])
    as [evs fin].
  cbn [fst snd] in *. destruct Hev as ((opened_docs & ->) & Ha & Hl & Hf).
  cbv beta iota. cbn [fst snd].
  destruct (closing_events opened_docs) as (Ca & Cp & Cf).
  assert (Hplaced : merger.placed
            (merger.CreateOutputDocument :: merger.AddPage page_w page_h
               :: evs ++ map (fun kd => merger.CloseDocument (fst kd)) opened_docs)
          = merger.placed evs).
  { change (merger.placed (evs ++ map (fun kd => merger.CloseDocument (fst kd)) opened_docs)
            = merger.placed evs).
    rewrite placed_app, Cp. apply app_nil_r. }
  rewrite Hplaced.
  split; [reflexivity|]. split; [|split; [|split; [|split]]].
  - cbn [filter merger.is_add_page]. rewrite filter_app, Ha, Ca. reflexivity.
  - constructor; [exact I|]. constructor; [exact I|].
    apply Forall_app. split; [exact Hf | apply Cf].
  - lia.
  - intros ->. subst k. assert (0 <= Z.min (layout.items_per_page layout_config)
                                     (Z.of_nat (List.length items)))%Z by lia.
    specialize (Hk H). lia.
  - intros m -> Hm. subst k.
    assert (0 <= Z.min m (Z.of_nat (List.length items)))%Z by lia.
    specialize (Hk H). lia.
Qed.


(** C2 (the code departs from it). The preview of "the first merged page"
    takes [items[:min(max_items, len(items))]] with no clamp to the page
    capacity.  On the 2 x 2 grid (capacity 4), five items and
    [max_items = 5] compose five items onto the single page, the fifth into
    the cell of the first, with the same destination rectangle; and
    [max_items = -1] with six items composes five. *)
Theorem C2_preview_exceeds_page_capacity :
  let five := map scenario.item ["a.pdf"; "b.pdf"; "c.pdf"; "d.pdf"; "e.pdf"]%string in
  let six := map scenario.item
               ["a.pdf"; "b.pdf"; "c.pdf"; "d.pdf"; "e.pdf"; "f.pdf"]%string in
  let run := merger.generate_preview_page scenario.engine scenario.layout_2x2
               five (Some 5%Z) in
  let negative := merger.generate_preview_page scenario.engine scenario.layout_2x2
                    six (Some (-1)%Z) in
  LayoutConfig_ok scenario.layout_2x2 /\
  layout.items_per_page scenario.layout_2x2 = 4%Z /\
  (fst run = true /\
   List.length (filter merger.is_add_page (snd run)) = 1%nat /\
   Forall (merger.on_page 0) (snd run) /\
   List.length (merger.placed (snd run)) = 5%nat /\
   ~ (Z.of_nat (List.length (merger.placed (snd run)))
      <= layout.items_per_page scenario.layout_2x2)%Z /\
   layout.get_cell_position scenario.layout_2x2 4
   = layout.get_cell_position scenario.layout_2x2 0 /\
   nth_error (outcome.dest_rects (snd run)) 4
   = nth_error (outcome.dest_rects (snd run)) 0 /\
   nth_error (outcome.dest_rects (snd run)) 0 <> None) /\
  (fst negative = true /\
   List.length (merger.placed (snd negative)) = 5%nat /\
   ~ (Z.of_nat (List.length (merger.placed (snd negative)))
      <= layout.items_per_page scenario.layout_2x2)%Z).
Proof.
  cbv zeta. split; [|split; [reflexivity|split]].
  - unfold LayoutConfig_ok. cbn. repeat split; try lia; discriminate.
  - split; [vm_compute; reflexivity|]. split; [vm_compute; reflexivity|].
    split; [vm_compute; repeat constructor; lia|].
    split; [vm_compute; reflexivity|].
    split; [vm_compute; intros H; apply H; reflexivity|].
    split; [reflexivity|]. split; [vm_compute; reflexivity|].
    vm_compute. discriminate.
  - split; [vm_compute; reflexivity|]. split; [vm_compute; reflexivity|].
    vm_compute. intros H. apply H. reflexivity.
Qed.

(** * Further properties *)

(** ** Grid layout *)
(** X1. For every constructed layout and every integer index, the cell
    position is inside the grid and is the row-major position of the index
    reduced modulo the page capacity; so two indices of one page
    ([0 <= i, j < items_per_page]) with the same cell are equal. *)
Theorem X1_cell_position_row_major (config : LayoutConfig) (i : Z) :
  LayoutConfig_ok config ->
  let '(row, col) := layout.get_cell_position config i in
  (0 <= row < rows config)%Z /\ (0 <= col < cols config)%Z /\
  (row * cols config + col = i mod layout.items_per_page config)%Z /\
  (forall j : Z,
     (0 <= i < layout.items_per_page config)%Z ->
     (0 <= j < layout.items_per_page config)%Z ->
     layout.get_cell_position config j = (row, col) -> j = i).
Proof.
  intros Hcfg.
  assert (Hrm : forall k : Z,
            (fst (layout.get_cell_position config k) * cols config
             + snd (layout.get_cell_position config k)
             = k mod layout.items_per_page config)%Z).
  { destruct Hcfg as (Hr & Hc & _). intros k.
    unfold layout.get_cell_position, layout.items_per_page. cbn [fst snd].
    rewrite (Z.mul_comm (rows config) (cols config)).
    rewrite (Z.rem_mul_r k (cols config) (rows config)) by lia. lia. }
  destruct (get_cell_position_range config i (proj1 Hcfg) (proj1 (proj2 Hcfg)))
    as [Hrow Hcol].
  pose proof (Hrm i) as Hi.
  destruct (layout.get_cell_position config i) as [row col] eqn:Ei.
  cbn [fst snd] in *.
  split; [exact Hrow|]. split; [exact Hcol|]. split; [exact Hi|].
  intros j Hir Hjr Ej. pose proof (Hrm j) as Hj. rewrite Ej in Hj. cbn [fst snd] in Hj.
  rewrite Z.mod_small in Hi by exact Hir. rewrite Z.mod_small in Hj by exact Hjr. lia.
Qed.

Lemma X1_cell_position_row_major_witness :
  let '(row, col) := layout.get_cell_position scenario.layout_2x2 (-3) in
  (row * cols scenario.layout_2x2 + col
   = (-3) mod layout.items_per_page scenario.layout_2x2)%Z.
Proof.
  pose proof (X1_cell_position_row_major scenario.layout_2x2 (-3)) as H.
  destruct (layout.get_cell_position scenario.layout_2x2 (-3)) as [row col].
  apply H. unfold LayoutConfig_ok. cbn. repeat split; try lia; discriminate.
Defined.

(** ** Crop rectangles *)
Section CropFacts.

Lemma is_empty_true (r : fitz.Rect) :
  fitz.is_empty r = true <-> fitz.x1 r <= fitz.x0 r \/ fitz.y1 r <= fitz.y0 r.
Proof.
  unfold fitz.is_empty. rewrite orb_true_iff, !Qle_bool_iff. reflexivity.
Qed.

Lemma width_of_origin (w h : Q) :
  0 < w -> 0 < h ->
  fitz.width (fitz.mkRect 0 0 w h) == w /\ fitz.height (fitz.mkRect 0 0 w h) == h.
Proof.
  intros Hw Hh. unfold fitz.width, fitz.height. cbn.
  split; rewrite Q.max_r; lra.
Qed.

End CropFacts.

(** X6. On a page whose rectangle starts at the origin and has positive
    width and height, a manual region with [0 <= x0 < x1 <= 1] and
    [0 <= y0 < y1 <= 1] is resolved without clamping: the intersection with
    the page changes nothing, and the crop rectangle is the region scaled by
    the page size. *)
Theorem X6_manual_crop_exact_on_origin_page
    (w h : Q) (object_bounds pixel_bounds : fitz.Rect) (norm : Q * Q * Q * Q) :
  0 < w -> 0 < h -> manual_norm_ok norm ->
  let page := cropper.mkPage (fitz.mkRect 0 0 w h) object_bounds pixel_bounds in
  let crop := cropper._manual_crop page norm in
  let '(nx0, ny0, nx1, ny1) := norm in
  fitz.x0 crop == nx0 * w /\ fitz.y0 crop == ny0 * h /\
  fitz.x1 crop == nx1 * w /\ fitz.y1 crop == ny1 * h.
Proof.
  intros Hw Hh Hn page crop. subst crop page.
  destruct norm as [[[nx0 ny0] nx1] ny1].
  destruct Hn as (Hx0 & Hx & Hx1 & Hy0 & Hy & Hy1).
  destruct (width_of_origin w h Hw Hh) as [Ew Eh].
  assert (Hcoords :
    let crop := cropper._manual_crop
                  (cropper.mkPage (fitz.mkRect 0 0 w h) object_bounds pixel_bounds)
                  (nx0, ny0, nx1, ny1) in
    fitz.x0 crop == nx0 * w /\ fitz.y0 crop == ny0 * h /\
    fitz.x1 crop == nx1 * w /\ fitz.y1 crop == ny1 * h).
  { unfold cropper._manual_crop. cbn [cropper.rect].
    set (pr := fitz.mkRect 0 0 w h) in *.
    assert (Ep : fitz.is_empty pr = false).
    { apply is_empty_false. cbn. split; assumption. }
    assert (Es : fitz.is_empty
                   (fitz.mkRect (nx0 * fitz.width pr) (ny0 * fitz.height pr)
                                (nx1 * fitz.width pr) (ny1 * fitz.height pr)) = false).
    { apply is_empty_false. cbn [fitz.x0 fitz.y0 fitz.x1 fitz.y1].
      rewrite Ew, Eh. split; apply Qmult_lt_compat_r; assumption. }
    unfold fitz.and. rewrite Ep, Es. cbn [fitz.x0 fitz.y0 fitz.x1 fitz.y1 pr].
    fold pr. rewrite Ew, Eh.
    assert (0 <= nx0 * w) by (apply Qmult_le_0_compat; lra).
    assert (0 <= ny0 * h) by (apply Qmult_le_0_compat; lra).
    assert (nx1 * w <= 1 * w) by (apply Qmult_le_compat_r; lra).
    assert (ny1 * h <= 1 * h) by (apply Qmult_le_compat_r; lra).
    repeat split.
    - apply Q.max_l. assumption.
    - apply Q.max_l. assumption.
    - apply Q.min_l. lra.
    - apply Q.min_l. lra. }
  cbv zeta in Hcoords. exact Hcoords.
Qed.

Lemma X6_manual_crop_exact_on_origin_page_witness :
  fitz.x1 (cropper._manual_crop
             (cropper.mkPage (fitz.mkRect 0 0 200 100) fitz.Rect0 fitz.Rect0)
             (1 # 4, 1 # 4, 3 # 4, 1)) == (3 # 4) * 200.
Proof.
  apply (X6_manual_crop_exact_on_origin_page 200 100 fitz.Rect0 fitz.Rect0
           (1 # 4, 1 # 4, 3 # 4, 1)).
  - reflexivity.
  - reflexivity.
  - unfold manual_norm_ok. repeat split; vm_compute; congruence.
Defined.

(** X7. For every constructed CropConfig and every page, the top crop is
    anchored at (0, 0), as wide as the page and [top_half_ratio] times as
    high, so never higher than the page; on a page whose rectangle starts at
    the origin and is not empty it lies within the page and is not empty. *)
Theorem X7_top_half_crop_shape (config : CropConfig) (page : cropper.Page) :
  CropConfig_ok config ->
  let crop := cropper._top_half_crop config page in
  fitz.x0 crop = 0 /\ fitz.y0 crop = 0 /\
  fitz.x1 crop = fitz.width (cropper.rect page) /\
  fitz.y1 crop == top_half_ratio config * fitz.height (cropper.rect page) /\
  fitz.y1 crop <= fitz.height (cropper.rect page) /\
  (fitz.x0 (cropper.rect page) == 0 -> fitz.y0 (cropper.rect page) == 0 ->
   fitz.is_empty (cropper.rect page) = false ->
   fitz.within crop (cropper.rect page) /\ fitz.is_empty crop = false).
Proof.
  intros (Hr0 & Hr1 & _) crop. subst crop. unfold cropper._top_half_crop.
  cbn [fitz.x0 fitz.y0 fitz.x1 fitz.y1].
  assert (Hh : 0 <= fitz.height (cropper.rect page)) by apply Q.le_max_l.
  assert (Hle : fitz.height (cropper.rect page) * top_half_ratio config
                <= fitz.height (cropper.rect page)).
  { rewrite <- (Qmult_1_r (fitz.height (cropper.rect page))) at 2.
    rewrite !(Qmult_comm (fitz.height (cropper.rect page))).
    apply Qmult_le_compat_r; assumption. }
  split; [reflexivity|]. split; [reflexivity|]. split; [reflexivity|].
  split; [apply Qmult_comm|]. split; [exact Hle|].
  intros Ex Ey Hne.
  destruct (width_of_nonempty _ Hne) as [Hw Hh'].
  apply is_empty_false in Hne. destruct Hne as [Hx Hy].
  assert (Ew : fitz.width (cropper.rect page) == fitz.x1 (cropper.rect page)).
  { unfold fitz.width. rewrite Q.max_r; lra. }
  assert (Eh : fitz.height (cropper.rect page) == fitz.y1 (cropper.rect page)).
  { unfold fitz.height. rewrite Q.max_r; lra. }
  split.
  - unfold fitz.within. cbn [fitz.x0 fitz.y0 fitz.x1 fitz.y1].
    repeat split; lra.
  - apply is_empty_false. cbn [fitz.x0 fitz.y0 fitz.x1 fitz.y1]. split; [exact Hw|].
    apply Qmult_lt_0_compat; assumption.
Qed.

Lemma X7_top_half_crop_shape_witness :
  fitz.y1 (cropper._top_half_crop CropConfig_default
             (cropper.mkPage (fitz.mkRect 0 0 200 100) fitz.Rect0 fitz.Rect0))
  <= fitz.height (fitz.mkRect 0 0 200 100).
Proof.
  assert (Hcfg : CropConfig_ok CropConfig_default).
  { unfold CropConfig_ok. cbn. repeat split; try lia; vm_compute; congruence. }
  destruct (X7_top_half_crop_shape CropConfig_default
              (cropper.mkPage (fitz.mkRect 0 0 200 100) fitz.Rect0 fitz.Rect0) Hcfg)
    as (_ & _ & _ & _ & H & _).
  exact H.
Defined.

(** X8. For every constructed CropConfig, when detection yields a non-empty
    rectangle that lies within the page, the automatic crop contains that
    rectangle, lies within the page and is not empty: the margin is added
    around the detected content without cutting any of it. *)
Theorem X8_auto_crop_keeps_detected_content
    (config : CropConfig) (page : cropper.Page) :
  CropConfig_ok config ->
  fitz.is_empty (cropper.detected page) = false ->
  fitz.within (cropper.detected page) (cropper.rect page) ->
  let crop := cropper._auto_crop config page in
  fitz.within (cropper.detected page) crop /\
  fitz.within crop (cropper.rect page) /\
  fitz.is_empty crop = false.
Proof.
  intros (_ & _ & Hm & _) Hne Hin crop. subst crop.
  unfold cropper._auto_crop. rewrite auto_crop_run_cases.
  unfold cropper.detected in Hne, Hin |- *.
  set (det := if fitz.is_empty (cropper.object_bounds page)
                 || negb (Qle_bool 100 (fitz.get_area (cropper.object_bounds page)))
              then cropper.pixel_bounds page else cropper.object_bounds page) in *.
  assert (Hrun :
    fst (if fitz.is_empty (cropper.object_bounds page)
            || negb (Qle_bool 100 (fitz.get_area (cropper.object_bounds page)))
         then
           if fitz.is_empty (cropper.pixel_bounds page)
           then (cropper.rect page,
                 [cropper.DetectObject; cropper.DetectPixel; cropper.ReturnFullPage])
           else (fitz.and (cropper._expand_rect (cropper.pixel_bounds page)
                             (auto_margin config)) (cropper.rect page),
                 [cropper.DetectObject; cropper.DetectPixel; cropper.ExpandAndClamp])
         else
           if fitz.is_empty (cropper.object_bounds page)
           then (cropper.rect page, [cropper.DetectObject; cropper.ReturnFullPage])
           else (fitz.and (cropper._expand_rect (cropper.object_bounds page)
                             (auto_margin config)) (cropper.rect page),
                 [cropper.DetectObject; cropper.ExpandAndClamp]))
    = fitz.and (cropper._expand_rect det (auto_margin config)) (cropper.rect page)).
  { subst det.
    destruct (fitz.is_empty (cropper.object_bounds page)
              || negb (Qle_bool 100 (fitz.get_area (cropper.object_bounds page)))).
    - rewrite Hne. reflexivity.
    - rewrite Hne. reflexivity. }
  rewrite Hrun. clear Hrun.
  pose proof (expand_nonempty det (auto_margin config) Hm Hne) as Hexp.
  apply is_empty_false in Hne. destruct Hne as [Hx Hy].
  destruct Hin as (I0 & I1 & I2 & I3).
  assert (Hp : fitz.is_empty (cropper.rect page) = false).
  { apply is_empty_false. split; lra. }
  unfold fitz.and. rewrite Hp, Hexp.
  unfold fitz.within. cbn [fitz.x0 fitz.y0 fitz.x1 fitz.y1 cropper._expand_rect].
  split; [|split].
  - repeat split.
    + apply Q.max_lub; lra.
    + apply Q.max_lub; lra.
    + apply Q.min_glb; lra.
    + apply Q.min_glb; lra.
  - repeat split; first [apply Q.le_max_r | apply Q.le_min_r].
  - apply is_empty_false. cbn [fitz.x0 fitz.y0 fitz.x1 fitz.y1]. split.
    + apply Qle_lt_trans with (fitz.x0 det); [apply Q.max_lub; lra|].
      apply Qlt_le_trans with (fitz.x1 det); [exact Hx | apply Q.min_glb; lra].
    + apply Qle_lt_trans with (fitz.y0 det); [apply Q.max_lub; lra|].
      apply Qlt_le_trans with (fitz.y1 det); [exact Hy | apply Q.min_glb; lra].
Qed.

Lemma X8_auto_crop_keeps_detected_content_witness :
  fitz.within (fitz.mkRect 10 10 150 90)
              (cropper._auto_crop CropConfig_default
                 (cropper.mkPage (fitz.mkRect 0 0 200 100)
                                 (fitz.mkRect 10 10 150 90) fitz.Rect0)).
Proof.
  apply (X8_auto_crop_keeps_detected_content CropConfig_default
           (cropper.mkPage (fitz.mkRect 0 0 200 100)
                           (fitz.mkRect 10 10 150 90) fitz.Rect0)).
  - unfold CropConfig_ok. cbn. repeat split; try lia; vm_compute; congruence.
  - vm_compute. reflexivity.
  - vm_compute. repeat split; discriminate.
Defined.

(** ** Object-based detection *)
Section UnionFacts.
Import detect.

Lemma within_trans (a b c : fitz.Rect) :
  fitz.within a b -> fitz.within b c -> fitz.within a c.
Proof.
  unfold fitz.within. intros (A0 & A1 & A2 & A3) (B0 & B1 & B2 & B3).
  repeat split; eapply Qle_trans; eassumption.
Qed.

Lemma or_both (a b : fitz.Rect) :
  fitz.is_empty a = false -> fitz.is_empty b = false ->
  fitz.is_empty (or a b) = false /\ fitz.within a (or a b) /\ fitz.within b (or a b).
Proof.
  intros Ha Hb. unfold or. rewrite Ha, Hb.
  apply is_empty_false in Ha. apply is_empty_false in Hb.
  destruct Ha as [Ax Ay], Hb as [Bx By]. split; [|split].
  - apply is_empty_false. cbn. split.
    + apply Qle_lt_trans with (fitz.x0 a); [apply Q.le_min_l|].
      apply Qlt_le_trans with (fitz.x1 a); [exact Ax | apply Q.le_max_l].
    + apply Qle_lt_trans with (fitz.y0 a); [apply Q.le_min_l|].
      apply Qlt_le_trans with (fitz.y1 a); [exact Ay | apply Q.le_max_l].
  - unfold fitz.within. cbn.
    repeat split; first [apply Q.le_min_l | apply Q.le_max_l].
  - unfold fitz.within. cbn.
    repeat split; first [apply Q.le_min_r | apply Q.le_max_r].
Qed.

Lemma or_left (a b : fitz.Rect) :
  fitz.is_empty a = false ->
  fitz.is_empty (or a b) = false /\ fitz.within a (or a b).
Proof.
  intros Ha. destruct (fitz.is_empty b) eqn:Hb.
  - unfold or. rewrite Hb. split; [exact Ha | apply within_refl].
  - destruct (or_both a b Ha Hb) as (H1 & H2 & _). split; assumption.
Qed.

Lemma or_right (a b : fitz.Rect) :
  fitz.is_empty b = false ->
  fitz.is_empty (or a b) = false /\ fitz.within b (or a b).
Proof.
  intros Hb. destruct (fitz.is_empty a) eqn:Ha.
  - unfold or. rewrite Hb, Ha. split; [exact Hb | apply within_refl].
  - destruct (or_both a b Ha Hb) as (H1 & _ & H3). split; assumption.
Qed.

Lemma or_least (a b outer : fitz.Rect) :
  (fitz.is_empty a = false -> fitz.within a outer) ->
  (fitz.is_empty b = false -> fitz.within b outer) ->
  fitz.is_empty (or a b) = false -> fitz.within (or a b) outer.
Proof.
  intros Ha Hb. unfold or.
  destruct (fitz.is_empty b) eqn:Eb; [intros E; apply Ha; exact E|].
  destruct (fitz.is_empty a) eqn:Ea; [intros _; apply Hb; reflexivity|].
  intros _. destruct (Ha eq_refl) as (A0 & A1 & A2 & A3).
  destruct (Hb eq_refl) as (B0 & B1 & B2 & B3).
  unfold fitz.within. cbn.
  repeat split; first [apply Q.min_glb | apply Q.max_lub]; assumption.
Qed.

Lemma union_keeps_start (rest : list fitz.Rect) :
  forall acc, fitz.is_empty acc = false ->
    fitz.is_empty (fold_left or rest acc) = false /\
    fitz.within acc (fold_left or rest acc).
Proof.
  induction rest as [|b rest IH]; intros acc Hacc; cbn.
  - split; [exact Hacc | apply within_refl].
  - destruct (or_left acc b Hacc) as [Hne Hin].
    destruct (IH (or acc b) Hne) as [Hne' Hin'].
    split; [exact Hne' | eapply within_trans; eassumption].
Qed.

Lemma union_contains (rest : list fitz.Rect) :
  forall acc r, In r rest -> fitz.is_empty r = false ->
    fitz.is_empty (fold_left or rest acc) = false /\
    fitz.within r (fold_left or rest acc).
Proof.
  induction rest as [|b rest IH]; intros acc r Hin Hr; [contradiction|].
  cbn. destruct Hin as [-> | Hin].
  - destruct (or_right acc r Hr) as [Hne Hw].
    destruct (union_keeps_start rest (or acc r) Hne) as [Hne' Hw'].
    split; [exact Hne' | eapply within_trans; eassumption].
  - apply IH; assumption.
Qed.

Lemma union_of_empties (rest : list fitz.Rect) :
  forall acc, (forall r, In r rest -> fitz.is_empty r = true) ->
    fold_left or rest acc = acc.
Proof.
  induction rest as [|b rest IH]; intros acc Hall; [reflexivity|].
  cbn. assert (Hb : fitz.is_empty b = true) by (apply Hall; left; reflexivity).
  unfold or at 2. rewrite Hb. apply IH. intros r Hr. apply Hall. right. exact Hr.
Qed.

Lemma union_least (rest : list fitz.Rect) (outer : fitz.Rect) :
  forall acc,
    (fitz.is_empty acc = false -> fitz.within acc outer) ->
    (forall r, In r rest -> fitz.is_empty r = false -> fitz.within r outer) ->
    fitz.is_empty (fold_left or rest acc) = false ->
    fitz.within (fold_left or rest acc) outer.
Proof.
  induction rest as [|b rest IH]; intros acc Hacc Hall Hne; cbn in *.
  - apply Hacc. exact Hne.
  - apply IH; [| |exact Hne].
    + apply or_least; [exact Hacc|]. apply Hall. left. reflexivity.
    + intros r Hr. apply Hall. right. exact Hr.
Qed.

Lemma union_all_contains (rects : list fitz.Rect) (r : fitz.Rect) :
  In r rects -> fitz.is_empty r = false ->
  fitz.is_empty (union_all rects) = false /\ fitz.within r (union_all rects).
Proof.
  destruct rects as [|first rest]; [contradiction|].
  intros [-> | Hin] Hr; cbn [union_all].
  - apply union_keeps_start. exact Hr.
  - apply union_contains; assumption.
Qed.

Lemma union_all_empty (rects : list fitz.Rect) :
  (forall r, In r rects -> fitz.is_empty r = true) ->
  fitz.is_empty (union_all rects) = true.
Proof.
  destruct rects as [|first rest]; intros Hall; [reflexivity|].
  cbn [union_all]. rewrite union_of_empties.
  - apply Hall. left. reflexivity.
  - intros r Hr. apply Hall. right. exact Hr.
Qed.

Lemma union_all_least (rects : list fitz.Rect) (outer : fitz.Rect) :
  (forall r, In r rects -> fitz.is_empty r = false -> fitz.within r outer) ->
  fitz.is_empty (union_all rects) = false ->
  fitz.within (union_all rects) outer.
Proof.
  destruct rects as [|first rest]; intros Hall Hne; [discriminate|].
  cbn [union_all] in *. apply union_least; [| |exact Hne].
  - apply Hall. left. reflexivity.
  - intros r Hr. apply Hall. right. exact Hr.
Qed.

End UnionFacts.

(** X9. The object-based detector returns [fitz.Rect()] when nothing is
    gathered; otherwise its result contains every gathered rectangle that is
    not empty, is itself empty exactly when every gathered rectangle is
    empty, and is the smallest such rectangle: any rectangle containing all
    the non-empty gathered ones contains the result. *)
Theorem X9_object_bounds_is_smallest_enclosing (objs : detect.PageObjects) :
  let rects := detect.gathered objs in
  let result := detect._detect_object_bounds objs in
  (rects = [] -> result = fitz.Rect0) /\
  (forall r, In r rects -> fitz.is_empty r = false -> fitz.within r result) /\
  (fitz.is_empty result = true <-> forall r, In r rects -> fitz.is_empty r = true) /\
  (forall outer,
     (forall r, In r rects -> fitz.is_empty r = false -> fitz.within r outer) ->
     fitz.is_empty result = false -> fitz.within result outer).
Proof.
  intros rects result. subst result. unfold detect._detect_object_bounds.
  fold rects. split; [|split; [|split]].
  - intros ->. reflexivity.
  - intros r Hin Hr. apply union_all_contains; assumption.
  - split.
    + intros He r Hin. destruct (fitz.is_empty r) eqn:Hr; [reflexivity|].
      destruct (union_all_contains rects r Hin Hr) as [Hne _]. congruence.
    + apply union_all_empty.
  - intros outer. apply union_all_least.
Qed.

(** X10. A source of the object-based detector that raises only removes its
    own contribution: with the text blocks, the drawings or the images
    failing, the detector still returns, and its result is empty or lies
    within the result obtained when that source answers. *)
Theorem X10_failing_source_only_shrinks (objs : detect.PageObjects) :
  let full := detect._detect_object_bounds objs in
  let shrinks (r : fitz.Rect) := fitz.is_empty r = true \/ fitz.within r full in
  shrinks (detect._detect_object_bounds
             (detect.mkPageObjects None (detect.drawings objs) (detect.images objs))) /\
  shrinks (detect._detect_object_bounds
             (detect.mkPageObjects (detect.text_blocks objs) None (detect.images objs))) /\
  shrinks (detect._detect_object_bounds
             (detect.mkPageObjects (detect.text_blocks objs) (detect.drawings objs) None)).
Proof.
  intros full shrinks.
  assert (Hmono : forall objs',
            (forall r, In r (detect.gathered objs') -> In r (detect.gathered objs)) ->
            shrinks (detect._detect_object_bounds objs')).
  { intros objs' Hincl. unfold shrinks.
    destruct (fitz.is_empty (detect._detect_object_bounds objs')) eqn:He;
      [left; reflexivity | right].
    unfold detect._detect_object_bounds in *.
    apply union_all_least; [|exact He].
    intros r Hin Hr. apply union_all_contains; [apply Hincl; exact Hin | exact Hr]. }
  repeat split; apply Hmono; unfold detect.gathered;
    cbn [detect.text_blocks detect.drawings detect.images];
    intros r Hin; repeat rewrite in_app_iff in Hin; repeat rewrite in_app_iff;
    cbn [In] in Hin; tauto.
Qed.

(** ** Pixel-based detection *)
Section IndexFacts.
Import detect.

Lemma first_true_spec (v : list bool) :
  forall i, first_true v = Some i ->
    nth i v false = true /\ (i < List.length v)%nat /\
    forall j, nth j v false = true -> (i <= j)%nat.
Proof.
  induction v as [|b v IH]; intros i H; [discriminate|].
  cbn [first_true] in H. destruct b.
  - injection H as <-. cbn. repeat split; lia.
  - destruct (first_true v) as [k|]; [|discriminate]. injection H as <-.
    destruct (IH k eq_refl) as (H1 & H2 & H3). cbn [nth List.length].
    repeat split; [exact H1 | lia |].
    intros [|j] Hj; [discriminate|]. cbn in Hj. specialize (H3 j Hj). lia.
Qed.

Lemma last_true_spec (v : list bool) :
  forall i, last_true v = Some i ->
    nth i v false = true /\ (i < List.length v)%nat /\
    forall j, nth j v false = true -> (j <= i)%nat.
Proof.
  induction v as [|b v IH]; intros i H; [discriminate|].
  cbn [last_true] in H. destruct (last_true v) as [k|] eqn:Ek.
  - injection H as <-. destruct (IH k eq_refl) as (H1 & H2 & H3).
    cbn [nth List.length]. repeat split; [exact H1 | lia |].
    intros [|j] Hj; [lia|]. cbn in Hj. specialize (H3 j Hj). lia.
  - destruct b; [|discriminate]. injection H as <-.
    cbn [nth List.length]. repeat split; [lia|].
    intros [|j] Hj; [lia|]. cbn in Hj. exfalso.
    clear IH. revert j Hj. induction v as [|c v IHv]; intros j Hj.
    + destruct j; discriminate.
    + cbn [last_true] in Ek. destruct (last_true v) as [k|]; [discriminate|].
      destruct c; [discriminate|]. destruct j as [|j]; [discriminate|].
      cbn in Hj. apply (IHv eq_refl j Hj).
Qed.

Lemma first_true_some (v : list bool) :
  forall j, nth j v false = true -> exists i, first_true v = Some i.
Proof.
  induction v as [|b v IH]; intros j Hj; [destruct j; discriminate|].
  cbn [first_true]. destruct b; [eauto|].
  destruct j as [|j]; [discriminate|]. cbn in Hj.
  destruct (IH j Hj) as [i ->]. eauto.
Qed.

Lemma last_true_some (v : list bool) :
  forall j, nth j v false = true -> exists i, last_true v = Some i.
Proof.
  induction v as [|b v IH]; intros j Hj; [destruct j; discriminate|].
  cbn [last_true]. destruct (last_true v) as [k|] eqn:Ek; [eauto|].
  destruct j as [|j]; [cbn in Hj; subst b; eauto|].
  cbn in Hj. destruct (IH j Hj) as [i Hi]. discriminate.
Qed.

Lemma existsb_nth_true (row : list bool) :
  existsb (fun b => b) row = true <-> exists x, nth x row false = true.
Proof.
  rewrite existsb_exists. split.
  - intros (b & Hin & ->). destruct (In_nth _ _ false Hin) as (x & _ & Hx). eauto.
  - intros (x & Hx). exists true. split; [|reflexivity].
    rewrite <- Hx. apply nth_In.
    destruct (Nat.lt_ge_cases x (List.length row)) as [H | H]; [exact H|].
    rewrite nth_overflow in Hx by exact H. discriminate.
Qed.

Lemma nth_any_rows (mask : list (list bool)) (y : nat) :
  nth y (any_rows mask) false = true
  <-> exists x, nth x (nth y mask []) false = true.
Proof.
  unfold any_rows.
  change false with (existsb (fun b : bool => b) []) at 1.
  rewrite map_nth. apply existsb_nth_true.
Qed.

Lemma nth_any_cols (width : nat) (mask : list (list bool)) (x : nat) :
  nth x (any_cols width mask) false = true
  <-> (x < width)%nat /\ exists y, nth x (nth y mask []) false = true.
Proof.
  unfold any_cols.
  destruct (Nat.lt_ge_cases x width) as [Hx | Hx].
  - rewrite (nth_indep _ false
               (existsb (fun row : list bool => nth x row false) mask))
      by (rewrite length_map, length_seq; exact Hx).
    set (g := fun x0 : nat => existsb (fun row : list bool => nth x0 row false) mask).
    change (existsb (fun row : list bool => nth x row false) mask) with (g x).
    replace (g x) with (g (nth x (seq 0 width) x)) at 1
      by (rewrite seq_nth by exact Hx; reflexivity).
    rewrite map_nth, seq_nth by exact Hx. cbn [Nat.add]. unfold g.
    rewrite existsb_exists. split.
    + intros (row & Hin & Hrow). split; [exact Hx|].
      destruct (In_nth _ _ [] Hin) as (y & _ & Hy). exists y. rewrite Hy. exact Hrow.
    + intros (_ & y & Hy). exists (nth y mask []). split; [|exact Hy].
      apply nth_In. destruct (Nat.lt_ge_cases y (List.length mask)) as [H | H];
        [exact H|]. rewrite (nth_overflow mask) in Hy by exact H.
      destruct x; discriminate.
  - rewrite nth_overflow by (rewrite length_map, length_seq; exact Hx).
    split; [discriminate | intros [H _]; lia].
Qed.

Lemma rows_of_shape (A : Type) (height width : nat) :
  forall l : list A,
    List.length (rows_of height width l) = height /\
    forall row, In row (rows_of height width l) -> (List.length row <= width)%nat.
Proof.
  induction height as [|h IH]; intros l; cbn.
  - split; [reflexivity | contradiction].
  - destruct (IH (skipn width l)) as [Hl Hr]. split; [lia|].
    intros row [<- | Hin]; [rewrite length_firstn; lia | apply Hr; exact Hin].
Qed.

Lemma any_ink_iff (mask : list (list bool)) :
  existsb (existsb (fun b => b)) mask = true
  <-> exists y x, nth x (nth y mask []) false = true.
Proof.
  rewrite existsb_exists. split.
  - intros (row & Hin & Hrow). apply existsb_nth_true in Hrow.
    destruct Hrow as [x Hx]. destruct (In_nth _ _ [] Hin) as (y & _ & Hy).
    exists y, x. rewrite Hy. exact Hx.
  - intros (y & x & Hyx). exists (nth y mask []). split.
    + apply nth_In. destruct (Nat.lt_ge_cases y (List.length mask)) as [H | H];
        [exact H|]. rewrite (nth_overflow mask) in Hyx by exact H.
      destruct x; discriminate.
    + apply existsb_nth_true. eauto.
Qed.

End IndexFacts.

Section PixelFacts.
Import detect.
Variable config : CropConfig.

Lemma ink_in_range (pix : Pixmap) (img : list (list (Z * Z * Z))) (y x : nat) :
  reshape pix = Some img -> ink config img y x ->
  (x < pix_width pix)%nat /\ (y < pix_height pix)%nat.
Proof.
  unfold reshape, ink, mask_of.
  destruct (List.length (samples pix) =? pix_height pix * pix_width pix * 3)%nat;
    [|discriminate].
  intros E. injection E as <-. intros Hink.
  destruct (rows_of_shape (Z * Z * Z) (pix_height pix) (pix_width pix)
              (triples (samples pix))) as [Hlen Hrows].
  set (img := rows_of (pix_height pix) (pix_width pix) (triples (samples pix))) in *.
  set (f := fun px : Z * Z * Z => (gray px <? pixel_threshold config)%Z) in *.
  destruct (Nat.lt_ge_cases y (List.length img)) as [Hy | Hy].
  - split; [|lia].
    change (@nil bool) with (map f []) in Hink. rewrite map_nth in Hink.
    destruct (Nat.lt_ge_cases x (List.length (map f (nth y img [])))) as [Hx | Hx].
    + rewrite length_map in Hx.
      specialize (Hrows (nth y img []) (nth_In _ _ Hy)). lia.
    + rewrite nth_overflow in Hink by exact Hx. discriminate.
  - rewrite (nth_overflow (map (map f) img)) in Hink
      by (rewrite length_map; exact Hy).
    destruct x; discriminate.
Qed.

Lemma scaled_le (a b : Z) (zoom : Q) :
  0 < zoom -> (a <= b)%Z -> inject_Z a / zoom <= inject_Z b / zoom.
Proof.
  intros Hz Hab. unfold Qdiv. apply Qmult_le_compat_r.
  - rewrite <- Zle_Qle. exact Hab.
  - apply Qlt_le_weak, Qinv_lt_0_compat. exact Hz.
Qed.

Lemma scaled_lt (a b : Z) (zoom : Q) :
  0 < zoom -> (a < b)%Z -> inject_Z a / zoom < inject_Z b / zoom.
Proof.
  intros Hz Hab. unfold Qdiv. apply Qmult_lt_compat_r.
  - apply Qinv_lt_0_compat. exact Hz.
  - rewrite <- Zlt_Qlt. exact Hab.
Qed.

End PixelFacts.

(** X12. When the zoom is positive, the buffer has the right size and some
    pixel is darker than the threshold, the pixel-based detector returns the
    bounding box of the dark pixels mapped back to page coordinates: pixel
    columns [x_min .. x_max] and rows [y_min .. y_max] divided by the zoom,
    the upper bounds taken one pixel further.  Every dark pixel is in that
    range, each of the four bounds is attained by a dark pixel, the range
    lies inside the raster, and the rectangle is not empty and covers the
    square of every dark pixel. *)
Theorem X12_pixel_bounds_is_ink_bounding_box
    (config : CropConfig) (pix : detect.Pixmap) (img : list (list (Z * Z * Z))) :
  0 < pixel_zoom config ->
  detect.reshape pix = Some img ->
  (exists y x, detect.ink config img y x) ->
  let zoom := pixel_zoom config in
  let result := detect._detect_pixel_bounds config (Some pix) in
  exists x_min x_max y_min y_max : nat,
    result = fitz.mkRect (inject_Z (Z.of_nat x_min) / zoom)
                         (inject_Z (Z.of_nat y_min) / zoom)
                         (inject_Z (Z.of_nat x_max + 1) / zoom)
                         (inject_Z (Z.of_nat y_max + 1) / zoom) /\
    (forall y x, detect.ink config img y x ->
       (x_min <= x <= x_max)%nat /\ (y_min <= y <= y_max)%nat) /\
    (exists y, detect.ink config img y x_min) /\
    (exists y, detect.ink config img y x_max) /\
    (exists x, detect.ink config img y_min x) /\
    (exists x, detect.ink config img y_max x) /\
    (x_max < detect.pix_width pix)%nat /\ (y_max < detect.pix_height pix)%nat /\
    fitz.is_empty result = false /\
    (forall y x, detect.ink config img y x ->
       fitz.x0 result <= inject_Z (Z.of_nat x) / zoom /\
       inject_Z (Z.of_nat x + 1) / zoom <= fitz.x1 result /\
       fitz.y0 result <= inject_Z (Z.of_nat y) / zoom /\
       inject_Z (Z.of_nat y + 1) / zoom <= fitz.y1 result).
Proof.
  intros Hz Hr (y0 & x0 & Hink0) zoom result. subst result.
  unfold detect._detect_pixel_bounds. rewrite Hr.
  set (mask := detect.mask_of config img) in *.
  assert (Hany : existsb (existsb (fun b => b)) mask = true).
  { apply any_ink_iff. exists y0, x0. exact Hink0. }
  rewrite Hany. cbn [negb].
  destruct (ink_in_range config pix img y0 x0 Hr Hink0) as [Hx0 Hy0].
  assert (Hrow0 : nth y0 (detect.any_rows mask) false = true).
  { apply nth_any_rows. exists x0. exact Hink0. }
  assert (Hcol0 : nth x0 (detect.any_cols (detect.pix_width pix) mask) false = true).
  { apply nth_any_cols. split; [exact Hx0|]. exists y0. exact Hink0. }
  destruct (first_true_some _ _ Hrow0) as [y_min Eymin].
  destruct (last_true_some _ _ Hrow0) as [y_max Eymax].
  destruct (first_true_some _ _ Hcol0) as [x_min Exmin].
  destruct (last_true_some _ _ Hcol0) as [x_max Exmax].
  rewrite Eymin, Eymax, Exmin, Exmax.
  destruct (first_true_spec _ _ Eymin) as (Fy1 & _ & Fy3).
  destruct (last_true_spec _ _ Eymax) as (Ly1 & _ & Ly3).
  destruct (first_true_spec _ _ Exmin) as (Fx1 & _ & Fx3).
  destruct (last_true_spec _ _ Exmax) as (Lx1 & _ & Lx3).
  assert (Hall : forall y x, detect.ink config img y x ->
            (x_min <= x <= x_max)%nat /\ (y_min <= y <= y_max)%nat).
  { intros y x Hink.
    destruct (ink_in_range config pix img y x Hr Hink) as [Hx Hy].
    assert (Hrow : nth y (detect.any_rows mask) false = true)
      by (apply nth_any_rows; exists x; exact Hink).
    assert (Hcol : nth x (detect.any_cols (detect.pix_width pix) mask) false = true)
      by (apply nth_any_cols; split; [exact Hx | exists y; exact Hink]).
    pose proof (Fy3 y Hrow). pose proof (Ly3 y Hrow).
    pose proof (Fx3 x Hcol). pose proof (Lx3 x Hcol). lia. }
  apply nth_any_rows in Fy1, Ly1. apply nth_any_cols in Fx1, Lx1.
  destruct Fx1 as [_ Fx1]. destruct Lx1 as [Lxw Lx1].
  destruct Ly1 as [xl Hyl].
  destruct (ink_in_range config pix img y_max xl Hr Hyl) as [_ Lyh].
  destruct (Hall y0 x0 Hink0) as [Hxr Hyr].
  exists x_min, x_max, y_min, y_max.
  split; [reflexivity|]. split; [exact Hall|].
  split; [exact Fx1|]. split; [exact Lx1|]. split; [exact Fy1|].
  split; [exists xl; exact Hyl|]. split; [exact Lxw|]. split; [exact Lyh|].
  split.
  - apply is_empty_false. cbn [fitz.x0 fitz.y0 fitz.x1 fitz.y1].
    split; apply scaled_lt; try exact Hz; lia.
  - intros y x Hink. destruct (Hall y x Hink) as [Hx Hy].
    cbn [fitz.x0 fitz.y0 fitz.x1 fitz.y1].
    repeat split; apply scaled_le; try exact Hz; lia.
Qed.

Lemma X12_pixel_bounds_is_ink_bounding_box_witness :
  fitz.is_empty
    (detect._detect_pixel_bounds CropConfig_default
       (Some (detect.mkPixmap 2 1 [255; 255; 255; 0; 0; 0]%Z))) = false.
Proof.
  destruct (X12_pixel_bounds_is_ink_bounding_box CropConfig_default
              (detect.mkPixmap 2 1 [255; 255; 255; 0; 0; 0]%Z)
              [[(255, 255, 255); (0, 0, 0)]]%Z)
    as (x_min & x_max & y_min & y_max & _ & _ & _ & _ & _ & _ & _ & _ & H & _).
  - reflexivity.
  - reflexivity.
  - exists 0%nat, 1%nat. reflexivity.
  - exact H.
Defined.

(** ** The merge pipeline *)
Section OpenFacts.
Import merger trace.
Variable engine : Engine.
Variable layout_config : LayoutConfig.

Lemma opens_app (e1 e2 : list Event) : opens (e1 ++ e2) = opens e1 ++ opens e2.
Proof.
  induction e1 as [|e e1 IH]; [reflexivity|].
  destruct e; cbn; rewrite ?IH; reflexivity.
Qed.

(** One item opens nothing and leaves the cache alone, or opens its own
    path, absent from the cache, and appends it. *)
Lemma place_item_opens (current_page : option Z) (opened_docs : Cache)
    (item : InvoiceItem) (cell_index : Z) :
  let run := place_item engine layout_config current_page opened_docs
               item cell_index in
  (opens (item_events run) = [] /\ item_cache run = opened_docs) \/
  (exists d, opens (item_events run) = [path item] /\
             cache_get opened_docs (path item) = None /\
             item_cache run = opened_docs ++ [(path item, d)]).
Proof.
  unfold place_item.
  destruct (cache_get opened_docs (path item)) as [d|] eqn:Eg.
  - left.
    destruct (cropper.compute_crop_rect cropper_config d (page_index item) item);
      [|split; reflexivity].
    destruct (layout.raises_zero_division layout_config); [split; reflexivity|].
    destruct current_page as [pg|]; [|split; reflexivity].
    destruct (show_pdf_page engine pg (path item) (page_index item) _ _);
      split; reflexivity.
  - destruct (open_document engine (path item)) as [d|];
      [right; exists d | left; split; reflexivity].
    destruct (cropper.compute_crop_rect cropper_config d (page_index item) item);
      [|repeat split; reflexivity].
    destruct (layout.raises_zero_division layout_config);
      [repeat split; reflexivity|].
    destruct current_page as [pg|]; [|repeat split; reflexivity].
    destruct (show_pdf_page engine pg (path item) (page_index item) _ _);
      repeat split; reflexivity.
Qed.

Lemma place_item_other_events (current_page : option Z) (opened_docs : Cache)
    (item : InvoiceItem) (cell_index : Z) :
  let evs := item_events (place_item engine layout_config current_page opened_docs
                            item cell_index) in
  filter is_add_page evs = [] /\ filter is_save evs = [] /\ reports evs = [].
Proof.
  unfold place_item.
  destruct (cache_get opened_docs (path item)) as [d|].
  - destruct (cropper.compute_crop_rect cropper_config d (page_index item) item);
      [|repeat split; reflexivity].
    destruct (layout.raises_zero_division layout_config);
      [repeat split; reflexivity|].
    destruct current_page as [pg|]; [|repeat split; reflexivity].
    destruct (show_pdf_page engine pg (path item) (page_index item) _ _);
      repeat split; reflexivity.
  - destruct (open_document engine (path item)) as [d|];
      [|repeat split; reflexivity].
    destruct (cropper.compute_crop_rect cropper_config d (page_index item) item);
      [|repeat split; reflexivity].
    destruct (layout.raises_zero_division layout_config);
      [repeat split; reflexivity|].
    destruct current_page as [pg|]; [|repeat split; reflexivity].
    destruct (show_pdf_page engine pg (path item) (page_index item) _ _);
      repeat split; reflexivity.
Qed.

Lemma opens_not_cached (opened_docs : Cache) (p : string) (d : cropper.Document)
    (later : list string) :
  cache_get opened_docs p = None ->
  NoDup later ->
  (forall q, In q later -> cache_get (opened_docs ++ [(p, d)]) q = None) ->
  NoDup (p :: later) /\
  (forall q, In q (p :: later) -> cache_get opened_docs q = None).
Proof.
  intros Hp Hnd Hlater. split.
  - constructor; [|exact Hnd]. intros Hin. specialize (Hlater p Hin).
    rewrite cache_get_snoc, Hp, String.eqb_refl in Hlater. discriminate.
  - intros q [<- | Hin]; [exact Hp|]. specialize (Hlater q Hin).
    rewrite cache_get_snoc in Hlater.
    destruct (cache_get opened_docs q); [discriminate | reflexivity].
Qed.

(** Whatever the scan does, it opens no path twice and none that is in
    the cache already. *)
Lemma scan_opens_once (total : Z) (progress_callback : bool)
    (cancel_check : option (Z -> bool)) (items : list InvoiceItem) :
  forall idx current_page pages opened_docs,
    let evs := fst (scan engine layout_config total progress_callback cancel_check
                      items idx current_page pages opened_docs) in
    NoDup (opens evs) /\
    forall q, In q (opens evs) -> cache_get opened_docs q = None.
Proof.
  induction items as [|item rest IH]; intros idx current_page pages opened_docs.
  - cbn. split; [constructor | contradiction].
  - cbn [scan].
    destruct (match cancel_check with Some poll => poll idx | None => false end).
    { cbn. split; [constructor | contradiction]. }
    destruct (layout.items_per_page layout_config =? 0)%Z.
    { destruct progress_callback; cbn; (split; [constructor | contradiction]). }
    destruct (page_size layout_config) as [page_w page_h].
    set (step := if (idx mod layout.items_per_page layout_config =? 0)%Z
                 then ([AddPage page_w page_h], Some pages, (pages + 1)%Z)
                 else ([], current_page, pages)).
    assert (Hpage : opens (fst (fst step)) = []).
    { subst step. destruct (idx mod layout.items_per_page layout_config =? 0)%Z;
        reflexivity. }
    destruct step as [[ev_page current_page'] pages']. cbn [fst] in Hpage.
    pose proof (place_item_opens current_page' opened_docs item
                  (idx mod layout.items_per_page layout_config)%Z) as Hitem.
    cbv zeta in Hitem.
    destruct (place_item engine layout_config current_page' opened_docs item
                (idx mod layout.items_per_page layout_config))
      as [ev_item opened1 raised].
    cbn [item_events item_cache item_raised] in *.
    assert (Hprog : opens (if progress_callback
                           then [ReportProgress (idx + 1) total (path item)]
                           else []) = [])
      by (destruct progress_callback; reflexivity).
    specialize (IH (idx + 1)%Z current_page' pages' opened1). cbv zeta in IH.
    destruct raised.
    + cbn [fst]. rewrite !opens_app, Hprog, Hpage. cbn [app].
      destruct Hitem as [[-> _] | (d & -> & Hp & _)].
      * split; [constructor | contradiction].
      * split; [repeat constructor; intros [] |].
        intros q [<- | []]. exact Hp.
    + destruct (scan engine layout_config total progress_callback cancel_check rest
                  (idx + 1) current_page' pages' opened1) as [ev_rest fin].
      cbn [fst] in *. rewrite !opens_app, Hprog, Hpage. cbn [app].
      destruct IH as [Hnd Hlater].
      destruct Hitem as [[-> ->] | (d & -> & Hp & ->)].
      * cbn [app]. split; assumption.
      * cbn [app]. apply (opens_not_cached opened_docs (path item) d); assumption.
Qed.

End OpenFacts.

(** X13. Whatever the items, the callbacks and the engine, and however the
    run ends (completed, cancelled or failed), [merge_to_pdf] opens no
    source path twice: an item whose path was opened earlier in the run
    reuses the cached handle. *)
Theorem X13_each_source_opened_once
    (engine : merger.Engine) (layout_config : LayoutConfig)
    (items : list InvoiceItem) (output_path : string)
    (progress_callback : bool) (cancel_check : option (Z -> bool)) :
  NoDup (trace.opens (snd (merger.merge_to_pdf engine layout_config items output_path
                             progress_callback cancel_check))).
Proof.
  unfold merger.merge_to_pdf. destruct items as [|item rest]; [constructor|].
  pose proof (scan_opens_once engine layout_config
                (Z.of_nat (List.length (item :: rest))) progress_callback cancel_check
                (item :: rest) 0%Z None 0%Z []) as [Hnd _].
  destruct (merger.scan engine layout_config (Z.of_nat (List.length (item :: rest)))
              progress_callback cancel_check (item :: rest) 0 None 0 [])
    as [evs fin].
  cbn [fst] in Hnd.
  destruct fin as [| |opened_docs]; cbn [snd trace.opens]; try exact Hnd.
  destruct (merger.save engine output_path); cbn [snd trace.opens]; [|exact Hnd].
  rewrite opens_app. cbn [app trace.opens].
  assert (Hc : trace.opens (map (fun kd : string * cropper.Document =>
                                   merger.CloseDocument (fst kd)) opened_docs) = []).
  { induction opened_docs as [|kd l IHl]; [reflexivity | exact IHl]. }
  rewrite Hc, !app_nil_r. exact Hnd.
Qed.

Section AccountingFacts.
Import merger trace.
Variable engine : Engine.
Variable layout_config : LayoutConfig.
Variable total : Z.
Variable progress_callback : bool.
Variable cancel_check : option (Z -> bool).

Hypothesis capacity_pos : (0 < layout.items_per_page layout_config)%Z.
Hypothesis no_cancel : never_cancelled cancel_check.

Lemma place_item_does_not_raise (current_page : option Z) (opened_docs : Cache)
    (item : InvoiceItem) (cell_index : Z) :
  item_raised (place_item engine layout_config current_page opened_docs
                 item cell_index) = false.
Proof.
  unfold place_item. rewrite (layout_does_not_raise layout_config capacity_pos).
  destruct (cache_get opened_docs (path item)) as [d|].
  - destruct (cropper.compute_crop_rect cropper_config d (page_index item) item);
      [|reflexivity].
    destruct current_page as [pg|]; [|reflexivity].
    destruct (show_pdf_page engine pg (path item) (page_index item) _ _); reflexivity.
  - destruct (open_document engine (path item)) as [d|]; [|reflexivity].
    destruct (cropper.compute_crop_rect cropper_config d (page_index item) item);
      [|reflexivity].
    destruct current_page as [pg|]; [|reflexivity].
    destruct (show_pdf_page engine pg (path item) (page_index item) _ _); reflexivity.
Qed.

Lemma page_count_step (n idx len : Z) :
  (0 < n)%Z ->
  ((if (idx mod n =? 0)%Z then 1 else 0)
   + ((idx + 1 + len + n - 1) / n - (idx + 1 + n - 1) / n)
   = (idx + (len + 1) + n - 1) / n - (idx + n - 1) / n)%Z.
Proof.
  intros Hn. rewrite (page_next n idx Hn).
  replace (idx + (len + 1) + n - 1)%Z with (idx + 1 + len + n - 1)%Z by lia.
  destruct (Z.eqb_spec (idx mod n) 0) as [E | E].
  - rewrite (page_start n idx Hn E). lia.
  - rewrite (page_inside n idx Hn E). lia.
Qed.

(** What an uncancelled scan reports and how many pages it adds; it
    saves nothing itself. *)
Lemma scan_accounting (items : list InvoiceItem) :
  forall idx current_page pages opened_docs,
    let n := layout.items_per_page layout_config in
    let evs := fst (scan engine layout_config total progress_callback cancel_check
                      items idx current_page pages opened_docs) in
    filter is_save evs = [] /\
    reports evs = (if progress_callback then reports_for total items idx else []) /\
    (Z.of_nat (List.length (filter is_add_page evs))
     = (idx + Z.of_nat (List.length items) + n - 1) / n - (idx + n - 1) / n)%Z.
Proof.
  induction items as [|item rest IH]; intros idx current_page pages opened_docs n.
  - cbn [scan fst filter reports reports_for List.length]. unfold reports.
    cbn [filter List.length Z.of_nat]. rewrite Z.add_0_r.
    destruct progress_callback; repeat split; lia.
  - cbn [scan]. rewrite (poll_false cancel_check no_cancel).
    destruct (Z.eqb_spec (layout.items_per_page layout_config) 0) as [E0 | _];
      [lia|].
    destruct (page_size layout_config) as [page_w page_h]. fold n.
    pose proof (page_count_step n idx (Z.of_nat (List.length rest)) capacity_pos)
      as Hcount.
    set (step := if (idx mod n =? 0)%Z
                 then ([AddPage page_w page_h], Some pages, (pages + 1)%Z)
                 else ([], current_page, pages)).
    assert (Hpage : filter is_save (fst (fst step)) = [] /\
                    reports (fst (fst step)) = [] /\
                    Z.of_nat (List.length (filter is_add_page (fst (fst step))))
                    = (if (idx mod n =? 0)%Z then 1 else 0)%Z).
    { subst step. destruct (idx mod n =? 0)%Z; repeat split. }
    destruct step as [[ev_page current_page'] pages']. cbn [fst] in Hpage.
    destruct Hpage as (Ps & Pr & Pa).
    pose proof (place_item_other_events engine layout_config current_page'
                  opened_docs item (idx mod n)%Z) as (Ia & Is & Ir).
    pose proof (place_item_does_not_raise current_page' opened_docs item
                  (idx mod n)%Z) as Hraise.
    destruct (place_item engine layout_config current_page' opened_docs item
                (idx mod n)) as [ev_item opened1 raised].
    cbn [item_events item_cache item_raised] in *. subst raised.
    specialize (IH (idx + 1)%Z current_page' pages' opened1). cbv zeta in IH.
    fold n in IH.
    destruct (scan engine layout_config total progress_callback cancel_check rest
                (idx + 1) current_page' pages' opened1) as [ev_rest fin].
    cbn [fst] in *. destruct IH as (Rs & Rr & Ra).
    unfold reports in *. rewrite !filter_app, Ps, Is, Rs, Pr, Ir, Rr, Ia.
    rewrite !length_app, !Nat2Z.inj_add, Pa, Ra. cbn [reports_for List.length].
    rewrite Nat2Z.inj_succ. unfold Z.succ.
    destruct progress_callback; cbn [filter is_save is_progress is_add_page app List.length];
      repeat split; lia.
Qed.

End AccountingFacts.

Section CompletedRun.
Import merger trace.
Variable engine : Engine.
Variable layout_config : LayoutConfig.

Lemma closes_only (opened_docs : Cache) :
  forallb is_close (map (fun kd => CloseDocument (fst kd)) opened_docs) = true.
Proof. induction opened_docs as [|kd l IH]; [reflexivity | exact IH]. Qed.

Lemma closing_filters (opened_docs : Cache) :
  let evs := map (fun kd => CloseDocument (fst kd)) opened_docs in
  filter is_save evs = [] /\ reports evs = [] /\ filter is_add_page evs = [].
Proof.
  induction opened_docs as [|kd l IH]; [repeat split | exact IH].
Qed.

(** The shape of the trace of a run whose scan is not cancelled. *)
Lemma uncancelled_run (items : list InvoiceItem) (output_path : string)
    (progress_callback : bool) (cancel_check : option (Z -> bool)) :
  LayoutConfig_ok layout_config -> items <> [] -> never_cancelled cancel_check ->
  exists evs opened_docs,
    scan engine layout_config (Z.of_nat (List.length items)) progress_callback
         cancel_check items 0 None 0 [] = (evs, Scanned opened_docs) /\
    merge_to_pdf engine layout_config items output_path progress_callback cancel_check
    = (if save engine output_path
       then (ReturnSaved,
             CreateOutputDocument :: evs ++ [SaveOutput output_path; CloseOutput]
               ++ map (fun kd => CloseDocument (fst kd)) opened_docs)
       else (ReturnException, CreateOutputDocument :: evs)) /\
    open_handles [] evs = map fst opened_docs /\
    placed evs = placements engine layout_config items 0 /\
    filter is_save evs = [] /\
    reports evs = (if progress_callback
                   then reports_for (Z.of_nat (List.length items)) items 0 else []) /\
    (Z.of_nat (List.length (filter is_add_page evs))
     = (Z.of_nat (List.length items) + layout.items_per_page layout_config - 1)
         / layout.items_per_page layout_config)%Z.
Proof.
  intros Hcfg Hne Hcc.
  pose proof (items_per_page_pos layout_config Hcfg) as Hn.
  destruct (scan_completes engine layout_config (Z.of_nat (List.length items))
              progress_callback cancel_check Hn Hcc items 0%Z None 0%Z []
              (cache_ok_nil engine) (page_inv_start layout_config Hn))
    as (new & Es & Hh & Hp).
  pose proof (scan_accounting engine layout_config (Z.of_nat (List.length items))
                progress_callback cancel_check Hn Hcc items 0%Z None 0%Z [])
    as Hacc.
  cbv zeta in Hacc.
  unfold merge_to_pdf.
  destruct (scan engine layout_config (Z.of_nat (List.length items))
              progress_callback cancel_check items 0 None 0 []) as [evs fin].
  cbn [fst snd] in *. subst fin. cbn [app] in *.
  destruct Hacc as (As & Ar & Aa).
  exists evs, new. split; [reflexivity|]. split.
  { destruct items; [congruence | reflexivity]. }
  split; [apply Hh|]. split; [exact Hp|]. split; [exact As|]. split; [exact Ar|].
  rewrite Aa. rewrite Z.add_0_l.
  replace ((0 + layout.items_per_page layout_config - 1)
             / layout.items_per_page layout_config)%Z with 0%Z; [lia|].
  symmetry. apply Z.div_small. lia.
Qed.

End CompletedRun.

(** X14. A run over a non-empty item list that is not cancelled and whose
    save succeeds returns True; its trace is: everything the scan did, then
    the save to the output path, exactly once, then the close of the output
    document, then nothing but closes of source handles, after which no
    source handle is open. *)
Theorem X14_completed_run_saves_then_closes
    (engine : merger.Engine) (layout_config : LayoutConfig)
    (items : list InvoiceItem) (output_path : string)
    (progress_callback : bool) (cancel_check : option (Z -> bool)) :
  LayoutConfig_ok layout_config -> items <> [] ->
  merger.never_cancelled cancel_check -> merger.save engine output_path = true ->
  let run := merger.merge_to_pdf engine layout_config items output_path
               progress_callback cancel_check in
  merger.returned (fst run) = true /\
  merger.open_handles [] (snd run) = [] /\
  filter trace.is_save (snd run) = [merger.SaveOutput output_path] /\
  exists before after,
    snd run = before ++ merger.SaveOutput output_path :: merger.CloseOutput :: after /\
    merger.placed (snd run) = merger.placed before /\
    trace.opens (snd run) = trace.opens before /\
    forallb trace.is_close after = true.
Proof.
  intros Hcfg Hne Hcc Hsave run. subst run.
  destruct (uncancelled_run engine layout_config items output_path progress_callback
              cancel_check Hcfg Hne Hcc)
    as (evs & opened_docs & _ & Erun & Hh & Hp & Hs & _ & _).
  rewrite Erun, Hsave. cbn [fst snd merger.returned].
  destruct (closing_filters opened_docs) as (Cs & _ & _).
  split; [reflexivity|]. split; [|split].
  - cbn [merger.open_handles]. rewrite open_handles_app, Hh.
    cbn [app merger.open_handles]. apply open_handles_close_all. auto.
  - cbn [filter trace.is_save]. rewrite filter_app, Hs.
    cbn [app filter trace.is_save]. rewrite Cs. reflexivity.
  - exists (merger.CreateOutputDocument :: evs),
           (map (fun kd => merger.CloseDocument (fst kd)) opened_docs).
    split; [reflexivity|]. split; [|split].
    + rewrite placed_create, placed_app. cbn [app]. rewrite placed_closing.
      rewrite app_nil_r. reflexivity.
    + cbn [trace.opens]. rewrite opens_app. cbn [app trace.opens].
      assert (Hc : trace.opens (map (fun kd : string * cropper.Document =>
                                       merger.CloseDocument (fst kd)) opened_docs) = []).
      { clear. induction opened_docs as [|kd l IHl]; [reflexivity | exact IHl]. }
      rewrite Hc, app_nil_r. reflexivity.
    + apply closes_only.
Qed.

Lemma X14_completed_run_saves_then_closes_witness :
  merger.open_handles []
    (snd (merger.merge_to_pdf scenario.engine scenario.layout_2x2
            (map scenario.item ["a.pdf"; "b.pdf"; "a.pdf"]%string) "out.pdf" true None))
  = [].
Proof.
  apply (X14_completed_run_saves_then_closes scenario.engine scenario.layout_2x2
           (map scenario.item ["a.pdf"; "b.pdf"; "a.pdf"]%string) "out.pdf" true None).
  - unfold LayoutConfig_ok. cbn. repeat split; try lia; discriminate.
  - discriminate.
  - exact I.
  - reflexivity.
Defined.

(** X15. A run over a non-empty item list that is not cancelled adds one
    output page at every [items_per_page]-th item: in all
    ceil(len(items) / items_per_page) pages, whether or not the save then
    succeeds. *)
Theorem X15_pages_added
    (engine : merger.Engine) (layout_config : LayoutConfig)
    (items : list InvoiceItem) (output_path : string)
    (progress_callback : bool) (cancel_check : option (Z -> bool)) :
  LayoutConfig_ok layout_config -> items <> [] ->
  merger.never_cancelled cancel_check ->
  let run := merger.merge_to_pdf engine layout_config items output_path
               progress_callback cancel_check in
  let n := layout.items_per_page layout_config in
  (Z.of_nat (List.length (filter merger.is_add_page (snd run)))
   = (Z.of_nat (List.length items) + n - 1) / n)%Z.
Proof.
  intros Hcfg Hne Hcc run n. subst run n.
  destruct (uncancelled_run engine layout_config items output_path progress_callback
              cancel_check Hcfg Hne Hcc)
    as (evs & opened_docs & _ & Erun & _ & _ & _ & _ & Ha).
  rewrite Erun. destruct (closing_filters opened_docs) as (_ & _ & Ca).
  destruct (merger.save engine output_path); cbn [snd filter merger.is_add_page].
  - rewrite filter_app. cbn [app filter merger.is_add_page]. rewrite Ca, app_nil_r.
    exact Ha.
  - exact Ha.
Qed.

Lemma X15_pages_added_witness :
  (Z.of_nat (List.length (filter merger.is_add_page
      (snd (merger.merge_to_pdf scenario.engine scenario.layout_2x2
              (map scenario.item ["a.pdf"; "b.pdf"; "c.pdf"; "d.pdf"; "e.pdf"]%string)
              "out.pdf" false None))))
   = (Z.of_nat 5 + layout.items_per_page scenario.layout_2x2 - 1)
       / layout.items_per_page scenario.layout_2x2)%Z.
Proof.
  apply (X15_pages_added scenario.engine scenario.layout_2x2
           (map scenario.item ["a.pdf"; "b.pdf"; "c.pdf"; "d.pdf"; "e.pdf"]%string)
           "out.pdf" false None).
  - unfold LayoutConfig_ok. cbn. repeat split; try lia; discriminate.
  - discriminate.
  - exact I.
Defined.

(** X16. In a run over a non-empty item list that is not cancelled, a
    supplied progress callback receives exactly one report per item, in item
    order, numbered 1 to len(items) with total len(items), each made for
    the item at its position (the trace keeps the item's path, of which the
    report carries the file name); without a callback nothing is
    reported. *)
Theorem X16_progress_reports
    (engine : merger.Engine) (layout_config : LayoutConfig)
    (items : list InvoiceItem) (output_path : string)
    (progress_callback : bool) (cancel_check : option (Z -> bool)) :
  LayoutConfig_ok layout_config -> items <> [] ->
  merger.never_cancelled cancel_check ->
  let run := merger.merge_to_pdf engine layout_config items output_path
               progress_callback cancel_check in
  trace.reports (snd run)
  = (if progress_callback
     then trace.reports_for (Z.of_nat (List.length items)) items 0
     else []) /\
  (progress_callback = true ->
   List.length (trace.reports (snd run)) = List.length items /\
   forall k item, nth_error items k = Some item ->
     nth_error (trace.reports (snd run)) k
     = Some (merger.ReportProgress (Z.of_nat k + 1) (Z.of_nat (List.length items))
               (path item))).
Proof.
  intros Hcfg Hne Hcc run. subst run.
  destruct (uncancelled_run engine layout_config items output_path progress_callback
              cancel_check Hcfg Hne Hcc)
    as (evs & opened_docs & _ & Erun & _ & _ & _ & Hr & _).
  destruct (closing_filters opened_docs) as (_ & Cr & _).
  assert (Hrep : trace.reports
            (snd (merger.merge_to_pdf engine layout_config items output_path
                    progress_callback cancel_check))
          = (if progress_callback
             then trace.reports_for (Z.of_nat (List.length items)) items 0 else [])).
  { rewrite Erun. unfold trace.reports in *.
    destruct (merger.save engine output_path); cbn [snd filter trace.is_progress].
    - rewrite filter_app. cbn [app filter trace.is_progress]. rewrite Cr, app_nil_r.
      exact Hr.
    - exact Hr. }
  split; [exact Hrep|]. intros ->. rewrite Hrep.
  generalize (Z.of_nat (List.length items)) as total. intros total.
  assert (Hgen : forall (l : list InvoiceItem) (idx : Z),
            List.length (trace.reports_for total l idx) = List.length l /\
            forall k item, nth_error l k = Some item ->
              nth_error (trace.reports_for total l idx) k
              = Some (merger.ReportProgress (idx + Z.of_nat k + 1) total (path item))).
  { induction l as [|x l IH]; intros idx.
    - split; [reflexivity|]. intros [|k] item H; discriminate.
    - destruct (IH (idx + 1)%Z) as [Hl Hk]. cbn [trace.reports_for List.length].
      split; [lia|]. intros [|k] item H.
      + injection H as <-. cbn. rewrite Z.add_0_r. reflexivity.
      + cbn in H. cbn [nth_error]. rewrite (Hk k item H). do 2 f_equal. lia. }
  destruct (Hgen items 0%Z) as [Hl Hk]. split; [exact Hl|].
  intros k item H. rewrite (Hk k item H). reflexivity.
Qed.

Lemma X16_progress_reports_witness :
  trace.reports
    (snd (merger.merge_to_pdf scenario.engine scenario.layout_2x2
            (map scenario.item ["a.pdf"; "missing.pdf"]%string) "out.pdf" true None))
  = [merger.ReportProgress 1 2 "a.pdf"; merger.ReportProgress 2 2 "missing.pdf"].
Proof.
  apply (X16_progress_reports scenario.engine scenario.layout_2x2
           (map scenario.item ["a.pdf"; "missing.pdf"]%string) "out.pdf" true None).
  - unfold LayoutConfig_ok. cbn. repeat split; try lia; discriminate.
  - discriminate.
  - exact I.
Defined.

(** X17. [ExportProgress.percentage] is 0 when the total is 0; for a
    positive total and [0 <= current <= total] it lies between 0 and 100, is
    100 when current equals total, and grows with current. *)
Theorem X17_percentage_bounds (p : progress.ExportProgress) :
  (progress.total p = 0%Z -> progress.percentage p = 0) /\
  ((0 < progress.total p)%Z ->
   (0 <= progress.current p <= progress.total p)%Z ->
   0 <= progress.percentage p /\ progress.percentage p <= 100) /\
  (progress.total p <> 0%Z -> progress.current p = progress.total p ->
   progress.percentage p == 100) /\
  (forall q : progress.ExportProgress,
     (0 < progress.total p)%Z -> progress.total q = progress.total p ->
     (progress.current p <= progress.current q)%Z ->
     progress.percentage p <= progress.percentage q).
Proof.
  unfold progress.percentage. split; [|split; [|split]].
  - intros ->. reflexivity.
  - intros Ht [Hc0 Hc1].
    destruct (Z.eqb_spec (progress.total p) 0) as [E | _]; [lia|].
    assert (Htq : 0 < inject_Z (progress.total p)).
    { change 0 with (inject_Z 0). rewrite <- Zlt_Qlt. exact Ht. }
    assert (H0 : 0 <= inject_Z (progress.current p) / inject_Z (progress.total p)).
    { apply Qle_shift_div_l; [exact Htq|]. rewrite Qmult_0_l.
      change 0 with (inject_Z 0). rewrite <- Zle_Qle. exact Hc0. }
    assert (H1 : inject_Z (progress.current p) / inject_Z (progress.total p) <= 1).
    { apply Qle_shift_div_r; [exact Htq|]. rewrite Qmult_1_l.
      rewrite <- Zle_Qle. exact Hc1. }
    split; lra.
  - intros Ht Hc.
    destruct (Z.eqb_spec (progress.total p) 0) as [E | _]; [congruence|].
    rewrite Hc. field. intro E. apply Ht.
    apply (proj1 (inject_Z_injective (progress.total p) 0)). exact E.
  - intros q Ht Eq Hc. rewrite Eq.
    destruct (Z.eqb_spec (progress.total p) 0) as [E | _]; [lia|].
    assert (Htq : 0 < inject_Z (progress.total p)).
    { change 0 with (inject_Z 0). rewrite <- Zlt_Qlt. exact Ht. }
    apply Qmult_le_compat_r; [|discriminate].
    unfold Qdiv. apply Qmult_le_compat_r.
    + rewrite <- Zle_Qle. exact Hc.
    + apply Qlt_le_weak, Qinv_lt_0_compat. exact Htq.
Qed.

Section CancelFacts.
Import merger trace.
Variable engine : Engine.
Variable layout_config : LayoutConfig.
Variable total : Z.
Variable progress_callback : bool.
Variable poll : Z -> bool.

Hypothesis capacity_pos : (0 < layout.items_per_page layout_config)%Z.

(** A scan whose predicate first answers true at the poll of item
    [idx + k] does what an uncancellable scan over the first [k] items
    does, and stops. *)
Lemma scan_cancelled_at (k : nat) :
  forall items idx current_page pages opened_docs,
    (k < List.length items)%nat ->
    (forall j, (j < k)%nat -> poll (idx + Z.of_nat j) = false) ->
    poll (idx + Z.of_nat k) = true ->
    scan engine layout_config total progress_callback (Some poll)
         items idx current_page pages opened_docs
    = (fst (scan engine layout_config total progress_callback None
              (firstn k items) idx current_page pages opened_docs),
       Cancelled).
Proof.
  induction k as [|k IH]; intros items idx current_page pages opened_docs Hk Hbefore Hat.
  - destruct items as [|item rest]; [cbn in Hk; lia|].
    cbn [scan firstn fst]. rewrite Z.add_0_r in Hat. rewrite Hat. reflexivity.
  - destruct items as [|item rest]; [cbn in Hk; lia|].
    cbn [List.length] in Hk.
    cbn [scan firstn].
    assert (H0 : poll idx = false).
    { rewrite <- (Z.add_0_r idx). apply (Hbefore 0%nat). lia. }
    rewrite H0.
    destruct (Z.eqb_spec (layout.items_per_page layout_config) 0) as [E0 | _];
      [lia|].
    destruct (page_size layout_config) as [page_w page_h].
    destruct (if (idx mod layout.items_per_page layout_config =? 0)%Z
              then ([AddPage page_w page_h], Some pages, (pages + 1)%Z)
              else ([], current_page, pages)) as [[ev_page current_page'] pages'].
    pose proof (place_item_does_not_raise engine layout_config capacity_pos
                  current_page' opened_docs item
                  (idx mod layout.items_per_page layout_config)%Z) as Hraise.
    destruct (place_item engine layout_config current_page' opened_docs item
                (idx mod layout.items_per_page layout_config))
      as [ev_item opened1 raised].
    cbn [item_events item_cache item_raised] in *. subst raised.
    rewrite (IH rest (idx + 1)%Z current_page' pages' opened1).
    + destruct (scan engine layout_config total progress_callback None
                  (firstn k rest) (idx + 1) current_page' pages' opened1)
        as [ev_rest fin].
      reflexivity.
    + lia.
    + intros j Hj. replace (idx + 1 + Z.of_nat j)%Z with (idx + Z.of_nat (S j))%Z by lia.
      apply Hbefore. lia.
    + replace (idx + 1 + Z.of_nat k)%Z with (idx + Z.of_nat (S k))%Z by lia.
      exact Hat.
Qed.

End CancelFacts.

(** X18. When the cancellation predicate answers false at the polls of the
    first [k] items and true at the poll of item [k], the run leaves through
    the cancellation return (value False) having processed exactly the first
    [k] items: its compositions and progress reports are those of these
    items, and nothing is saved. *)
Theorem X18_cancelled_after_k_items
    (engine : merger.Engine) (layout_config : LayoutConfig)
    (items : list InvoiceItem) (output_path : string)
    (progress_callback : bool) (poll : Z -> bool) (k : nat) :
  LayoutConfig_ok layout_config ->
  (k < List.length items)%nat ->
  (forall j, (j < k)%nat -> poll (Z.of_nat j) = false) ->
  poll (Z.of_nat k) = true ->
  let run := merger.merge_to_pdf engine layout_config items output_path
               progress_callback (Some poll) in
  fst run = merger.ReturnCancelled /\ merger.returned (fst run) = false /\
  merger.placed (snd run) = merger.placements engine layout_config (firstn k items) 0 /\
  trace.reports (snd run)
  = (if progress_callback
     then trace.reports_for (Z.of_nat (List.length items)) (firstn k items) 0
     else []) /\
  filter trace.is_save (snd run) = [].
Proof.
  intros Hcfg Hk Hbefore Hat run. subst run.
  pose proof (items_per_page_pos layout_config Hcfg) as Hn.
  unfold merger.merge_to_pdf.
  destruct items as [|item rest] eqn:Eitems; [cbn in Hk; lia|].
  rewrite <- Eitems in *.
  rewrite (scan_cancelled_at engine layout_config (Z.of_nat (List.length items))
             progress_callback poll Hn k items 0%Z None 0%Z [] Hk).
  2: { intros j Hj. rewrite Z.add_0_l. apply Hbefore. exact Hj. }
  2: { rewrite Z.add_0_l. exact Hat. }
  destruct (scan_completes engine layout_config (Z.of_nat (List.length items))
              progress_callback None Hn I (firstn k items) 0%Z None 0%Z []
              (cache_ok_nil engine) (page_inv_start layout_config Hn))
    as (new & _ & _ & Hp).
  pose proof (scan_accounting engine layout_config (Z.of_nat (List.length items))
                progress_callback None Hn I (firstn k items) 0%Z None 0%Z [])
    as (As & Ar & _).
  cbn [fst snd merger.returned].
  split; [reflexivity|]. split; [reflexivity|]. split; [|split].
  - rewrite placed_create. exact Hp.
  - unfold trace.reports in *. cbn [filter trace.is_progress]. exact Ar.
  - cbn [filter trace.is_save]. exact As.
Qed.

Lemma X18_cancelled_after_k_items_witness :
  merger.placed
    (snd (merger.merge_to_pdf scenario.engine scenario.layout_2x2
            (map scenario.item ["a.pdf"; "b.pdf"; "c.pdf"]%string) "out.pdf" false
            (Some (fun idx => (idx =? 2)%Z))))
  = merger.placements scenario.engine scenario.layout_2x2
      (firstn 2 (map scenario.item ["a.pdf"; "b.pdf"; "c.pdf"]%string)) 0.
Proof.
  apply (X18_cancelled_after_k_items scenario.engine scenario.layout_2x2
           (map scenario.item ["a.pdf"; "b.pdf"; "c.pdf"]%string) "out.pdf" false
           (fun idx => (idx =? 2)%Z) 2).
  - unfold LayoutConfig_ok. cbn. repeat split; try lia; discriminate.
  - cbn. lia.
  - intros [|[|j]] Hj; [reflexivity | reflexivity | lia].
  - reflexivity.
Defined.

Section PreviewPlacements.
Import merger trace.
Variable engine : Engine.
Variable layout_config : LayoutConfig.
Hypothesis capacity_pos : (0 < layout.items_per_page layout_config)%Z.

(** Within the capacity of a page the preview loop composes what the
    per-item view says. *)
Lemma preview_scan_placed (items : list InvoiceItem) :
  forall idx opened_docs,
    cache_ok engine opened_docs -> (0 <= idx)%Z ->
    (idx + Z.of_nat (List.length items) <= layout.items_per_page layout_config)%Z ->
    placed (fst (preview_scan engine layout_config items idx 0 opened_docs))
    = placements engine layout_config items idx.
Proof.
  pose proof (layout_does_not_raise layout_config capacity_pos) as Hnr.
  induction items as [|item rest IH]; intros idx opened_docs Hok H0 Hfit;
    [reflexivity|].
  cbn [List.length] in Hfit. cbn [preview_scan placements].
  rewrite (Z.div_small idx), (Z.mod_small idx) by lia.
  pose proof (place_item_cache engine layout_config Hnr (Some 0%Z)
                opened_docs item idx Hok) as Hc.
  pose proof (place_item_placed engine layout_config Hnr 0%Z opened_docs
                item idx Hok) as Hp.
  cbv zeta in Hc.
  destruct (place_item engine layout_config (Some 0%Z) opened_docs item idx)
    as [ev_item opened1 raised].
  cbn [item_events item_cache item_raised] in *.
  destruct Hc as (-> & new & -> & Hok1 & _).
  specialize (IH (idx + 1)%Z (opened_docs ++ new) Hok1).
  destruct (preview_scan engine layout_config rest (idx + 1) 0 (opened_docs ++ new))
    as [ev_rest fin].
  cbn [fst] in *. rewrite placed_app, Hp, IH by lia. reflexivity.
Qed.

Lemma placements_from_page (items : list InvoiceItem) :
  forall idx, (layout.items_per_page layout_config <= idx)%Z ->
    Forall (from_page 1) (placements engine layout_config items idx).
Proof.
  induction items as [|item rest IH]; intros idx Hidx; [constructor|].
  cbn [placements]. apply Forall_app. split; [|apply IH; lia].
  unfold placement_at.
  destruct (open_document engine (path item)) as [d|]; [|constructor].
  destruct (cropper.compute_crop_rect cropper_config d (page_index item) item);
    [|constructor].
  destruct (show_pdf_page engine _ (path item) (page_index item) _ _);
    [|constructor].
  constructor; [|constructor]. cbn.
  apply Z.div_le_lower_bound; lia.
Qed.

Lemma slice_to_page (items : list InvoiceItem) :
  slice_to items (Z.min (layout.items_per_page layout_config)
                        (Z.of_nat (List.length items)))
  = firstn (Z.to_nat (layout.items_per_page layout_config)) items.
Proof.
  unfold slice_to.
  destruct (Z.ltb_spec (Z.min (layout.items_per_page layout_config)
                              (Z.of_nat (List.length items))) 0) as [H | _]; [lia|].
  destruct (Z.le_ge_cases (layout.items_per_page layout_config)
                          (Z.of_nat (List.length items))) as [H | H].
  - rewrite Z.min_l by exact H. reflexivity.
  - rewrite Z.min_r by exact H. rewrite Nat2Z.id.
    rewrite firstn_all, firstn_all2 by lia. reflexivity.
Qed.

End PreviewPlacements.

(** X19. The default preview shows the first page of the export: for a
    constructed layout and a non-empty item list, [generate_preview_page]
    without [max_items] composes the first [items_per_page] items exactly as
    an uncancelled [merge_to_pdf] composes them, all on page 0, and every
    further composition of the export goes to a later page. *)
Theorem X19_preview_is_first_export_page
    (engine : merger.Engine) (layout_config : LayoutConfig)
    (items : list InvoiceItem) (output_path : string)
    (progress_callback : bool) (cancel_check : option (Z -> bool)) :
  LayoutConfig_ok layout_config -> items <> [] ->
  merger.never_cancelled cancel_check ->
  let preview := merger.generate_preview_page engine layout_config items None in
  let export := merger.merge_to_pdf engine layout_config items output_path
                  progress_callback cancel_check in
  let n := layout.items_per_page layout_config in
  merger.placed (snd preview)
  = merger.placements engine layout_config (firstn (Z.to_nat n) items) 0 /\
  Forall (merger.on_page 0) (merger.placed (snd preview)) /\
  exists later,
    merger.placed (snd export) = merger.placed (snd preview) ++ later /\
    Forall (trace.from_page 1) later.
Proof.
  intros Hcfg Hne Hcc preview export n. subst preview export.
  pose proof (items_per_page_pos layout_config Hcfg) as Hn. fold n in Hn.
  (* the export *)
  destruct (uncancelled_run engine layout_config items output_path progress_callback
              cancel_check Hcfg Hne Hcc)
    as (evs & opened_docs & _ & Erun & _ & Hp & _).
  assert (Hexport : merger.placed
            (snd (merger.merge_to_pdf engine layout_config items output_path
                    progress_callback cancel_check))
          = merger.placements engine layout_config items 0).
  { rewrite Erun. destruct (merger.save engine output_path); cbn [snd].
    - rewrite placed_create, placed_app. cbn [app]. rewrite placed_closing.
      rewrite app_nil_r. exact Hp.
    - rewrite placed_create. exact Hp. }
  (* the preview *)
  assert (Hpreview : merger.placed
            (snd (merger.generate_preview_page engine layout_config items None))
          = merger.placements engine layout_config (firstn (Z.to_nat n) items) 0).
  { unfold merger.generate_preview_page.
    destruct items as [|item rest] eqn:Eitems; [congruence|]. rewrite <- Eitems.
    rewrite (slice_to_page layout_config Hn items). fold n.
    destruct (page_size layout_config) as [page_w page_h].
    pose proof (preview_scan_events engine layout_config
                  (layout_does_not_raise layout_config Hn)
                  (firstn (Z.to_nat n) items) 0%Z 0%Z [] (cache_ok_nil engine)) as Hev.
    pose proof (preview_scan_placed engine layout_config Hn
                  (firstn (Z.to_nat n) items) 0%Z [] (cache_ok_nil engine)) as Hpl.
    cbv zeta in Hev.
    destruct (merger.preview_scan engine layout_config (firstn (Z.to_nat n) items)
                0 0 []) as [pevs fin].
    cbn [fst snd] in *. destruct Hev as ((cache & ->) & _).
    cbn [snd]. destruct (closing_events cache) as (_ & Cp & _).
    change (merger.placed (pevs ++ map (fun kd => merger.CloseDocument (fst kd)) cache)
            = merger.placements engine layout_config (firstn (Z.to_nat n) items) 0).
    rewrite placed_app, Cp, app_nil_r. apply Hpl; [lia|].
    rewrite length_firstn. fold n. lia. }
  split; [exact Hpreview|]. split.
  - rewrite Hpreview.
    assert (Hgen : forall (l : list InvoiceItem) (idx : Z),
              (0 <= idx)%Z -> (idx + Z.of_nat (List.length l) <= n)%Z ->
              Forall (merger.on_page 0) (merger.placements engine layout_config l idx)).
    { induction l as [|x l IH]; intros idx H0 Hfit; [constructor|].
      cbn [List.length] in Hfit. cbn [merger.placements].
      apply Forall_app. split; [|apply IH; lia].
      unfold merger.placement_at.
      destruct (merger.open_document engine (path x)) as [d|]; [|constructor].
      destruct (cropper.compute_crop_rect merger.cropper_config d (page_index x) x);
        [|constructor].
      destruct (merger.show_pdf_page engine _ (path x) (page_index x) _ _);
        [|constructor].
      constructor; [|constructor]. cbn. fold n. apply Z.div_small. lia. }
    apply Hgen; [lia|]. rewrite length_firstn. lia.
  - exists (merger.placements engine layout_config (skipn (Z.to_nat n) items)
              (0 + Z.of_nat (List.length (firstn (Z.to_nat n) items)))).
    split.
    + rewrite Hexport, Hpreview, <- placements_app, firstn_skipn. reflexivity.
    + destruct (Nat.le_gt_cases (List.length items) (Z.to_nat n)) as [Hs | Hs].
      * rewrite skipn_all2 by exact Hs. constructor.
      * apply (placements_from_page engine layout_config Hn). fold n.
        rewrite length_firstn. lia.
Qed.

Lemma X19_preview_is_first_export_page_witness :
  merger.placed
    (snd (merger.generate_preview_page scenario.engine scenario.layout_2x2
            (map scenario.item ["a.pdf"; "b.pdf"; "c.pdf"; "d.pdf"; "e.pdf"]%string)
            None))
  = merger.placements scenario.engine scenario.layout_2x2
      (firstn (Z.to_nat (layout.items_per_page scenario.layout_2x2))
         (map scenario.item ["a.pdf"; "b.pdf"; "c.pdf"; "d.pdf"; "e.pdf"]%string)) 0.
Proof.
  apply (X19_preview_is_first_export_page scenario.engine scenario.layout_2x2
           (map scenario.item ["a.pdf"; "b.pdf"; "c.pdf"; "d.pdf"; "e.pdf"]%string)
           "out.pdf" false None).
  - unfold LayoutConfig_ok. cbn. repeat split; try lia; discriminate.
  - discriminate.
  - exact I.
Defined.

(** ** The file list of the window *)
Section FileListFacts.
Import gui.

Lemma setitem_middle (pre post : list InvoiceItem) (x y : InvoiceItem) :
  setitem (pre ++ x :: post) (List.length pre) y = pre ++ y :: post.
Proof.
  induction pre as [|h pre IH]; cbn; [reflexivity|]. rewrite IH. reflexivity.
Qed.

Lemma adjacent_split (items : list InvoiceItem) :
  forall i a b,
    nth_error items i = Some a -> nth_error items (S i) = Some b ->
    exists pre post, items = pre ++ a :: b :: post /\ List.length pre = i.
Proof.
  induction items as [|h items IH]; intros i a b Ha Hb.
  - destruct i; discriminate.
  - destruct i as [|i].
    + cbn in Ha. injection Ha as ->. destruct items as [|h' items]; [discriminate|].
      cbn in Hb. injection Hb as ->. exists [], items. split; reflexivity.
    + cbn in Ha, Hb. destruct (IH i a b Ha Hb) as (pre & post & -> & Hl).
      exists (h :: pre), post. split; [reflexivity | cbn; lia].
Qed.

Lemma nth_error_at (pre post : list InvoiceItem) (x : InvoiceItem) :
  nth_error (pre ++ x :: post) (List.length pre) = Some x.
Proof.
  induction pre as [|h pre IH]; cbn; [reflexivity | exact IH].
Qed.

Lemma nth_error_after (pre post : list InvoiceItem) (x y : InvoiceItem) :
  nth_error (pre ++ x :: y :: post) (S (List.length pre)) = Some y.
Proof.
  induction pre as [|h pre IH]; cbn; [reflexivity | exact IH].
Qed.

(** Swapping two neighbours, in either order of the two assignments. *)
Lemma swap_neighbours (pre post : list InvoiceItem) (a b : InvoiceItem) :
  setitem (setitem (pre ++ a :: b :: post) (S (List.length pre)) a)
          (List.length pre) b = pre ++ b :: a :: post /\
  setitem (setitem (pre ++ a :: b :: post) (List.length pre) b)
          (S (List.length pre)) a = pre ++ b :: a :: post.
Proof.
  split.
  - replace (setitem (pre ++ a :: b :: post) (S (List.length pre)) a)
      with (pre ++ a :: a :: post).
    + apply setitem_middle.
    + clear. induction pre as [|h pre IH]; cbn; [reflexivity|].
      cbn in IH. rewrite <- IH. reflexivity.
  - rewrite setitem_middle.
    clear. induction pre as [|h pre IH]; cbn; [reflexivity|].
    cbn in IH. rewrite IH. reflexivity.
Qed.

Lemma in_range (items : list InvoiceItem) (i : nat) :
  (i < List.length items)%nat -> exists x, nth_error items i = Some x.
Proof.
  intros H. destruct (nth_error items i) as [x|] eqn:E; [eauto|].
  apply nth_error_None in E. lia.
Qed.

End FileListFacts.

(** X21. With an entry selected that is not the first one, [_move_up] raises
    nothing, exchanges the selected item with the one above it and selects
    it at its new place; the list keeps its items (a permutation, same
    length); and [_move_down] right after gives back the list and the
    selection as they were. With the first entry or nothing selected
    [_move_up] changes nothing. *)
Theorem X21_move_up_exchanges_and_is_undone
    (items : list InvoiceItem) (idx : nat) (others : list nat) :
  (idx < List.length items)%nat ->
  (idx = 0%nat -> gui._move_up (items, idx :: others) = Some (items, idx :: others)) /\
  gui._move_up (items, []) = Some (items, []) /\
  ((0 < idx)%nat ->
   exists moved,
     gui._move_up (items, idx :: others) = Some (moved, [(idx - 1)%nat]) /\
     nth_error moved (idx - 1) = nth_error items idx /\
     nth_error moved idx = nth_error items (idx - 1) /\
     Permutation items moved /\
     List.length moved = List.length items /\
     gui._move_down (moved, [(idx - 1)%nat]) = Some (items, [idx])).
Proof.
  intros Hidx. split; [|split].
  - intros ->. reflexivity.
  - reflexivity.
  - intros Hpos. destruct idx as [|i]; [lia|].
    destruct (in_range items i ltac:(lia)) as (a & Ha).
    destruct (in_range items (S i) Hidx) as (b & Hb).
    destruct (adjacent_split items i a b Ha Hb) as (pre & post & -> & <-).
    destruct (swap_neighbours pre post a b) as [Hup _].
    destruct (swap_neighbours pre post b a) as [_ Hdown].
    exists (pre ++ b :: a :: post).
    unfold gui._move_up, gui._move_down.
    replace (S (List.length pre) - 1)%nat with (List.length pre) by lia.
    replace (List.length pre + 1)%nat with (S (List.length pre)) by lia.
    cbn [Nat.ltb Nat.leb].
    rewrite !nth_error_at, !nth_error_after, Hup, Hdown.
    split; [reflexivity|]. split; [reflexivity|]. split; [reflexivity|].
    split; [|split].
    + apply Permutation_app_head. apply perm_swap.
    + rewrite !length_app. reflexivity.
    + destruct (Z.ltb_spec (Z.of_nat (List.length pre))
                  (Z.of_nat (List.length (pre ++ b :: a :: post)) - 1)) as [_ | H].
      * reflexivity.
      * rewrite length_app in H. cbn [List.length] in H. lia.
Qed.

Lemma X21_move_up_exchanges_and_is_undone_witness :
  gui._move_up (map scenario.item ["a.pdf"; "b.pdf"; "c.pdf"]%string, [2%nat])
  = Some (map scenario.item ["a.pdf"; "c.pdf"; "b.pdf"]%string, [1%nat]).
Proof.
  destruct (X21_move_up_exchanges_and_is_undone
              (map scenario.item ["a.pdf"; "b.pdf"; "c.pdf"]%string) 2 [])
    as (_ & _ & H).
  - cbn. lia.
  - destruct H as (moved & E & _); [lia|].
    rewrite E. vm_compute in E. injection E as <-. reflexivity.
Defined.

(** X22. With an entry selected that is not the last one, [_move_down]
    raises nothing, exchanges the selected item with the one below it and
    selects it at its new place; the list keeps its items (a permutation,
    same length); and [_move_up] right after gives back the list and the
    selection as they were. With the last entry or nothing selected
    [_move_down] changes nothing. *)
Theorem X22_move_down_exchanges_and_is_undone
    (items : list InvoiceItem) (idx : nat) (others : list nat) :
  (idx < List.length items)%nat ->
  (idx = (List.length items - 1)%nat ->
   gui._move_down (items, idx :: others) = Some (items, idx :: others)) /\
  gui._move_down (items, []) = Some (items, []) /\
  ((idx + 1 < List.length items)%nat ->
   exists moved,
     gui._move_down (items, idx :: others) = Some (moved, [(idx + 1)%nat]) /\
     nth_error moved (idx + 1) = nth_error items idx /\
     nth_error moved idx = nth_error items (idx + 1) /\
     Permutation items moved /\
     List.length moved = List.length items /\
     gui._move_up (moved, [(idx + 1)%nat]) = Some (items, [idx])).
Proof.
  intros Hidx. split; [|split].
  - intros E. unfold gui._move_down.
    destruct (Z.ltb_spec (Z.of_nat idx) (Z.of_nat (List.length items) - 1)) as [H | _];
      [lia | reflexivity].
  - reflexivity.
  - intros Hnext.
    destruct (in_range items idx Hidx) as (a & Ha).
    destruct (in_range items (S idx) ltac:(lia)) as (b & Hb).
    destruct (adjacent_split items idx a b Ha Hb) as (pre & post & -> & <-).
    destruct (swap_neighbours pre post a b) as [_ Hdown].
    destruct (swap_neighbours pre post b a) as [Hup _].
    exists (pre ++ b :: a :: post).
    unfold gui._move_up, gui._move_down.
    replace (List.length pre + 1 - 1)%nat with (List.length pre) by lia.
    replace (List.length pre + 1)%nat with (S (List.length pre)) by lia.
    cbn [Nat.ltb Nat.leb].
    rewrite !nth_error_at, !nth_error_after, Hup, Hdown.
    destruct (Z.ltb_spec (Z.of_nat (List.length pre))
                (Z.of_nat (List.length (pre ++ a :: b :: post)) - 1)) as [_ | H].
    + split; [reflexivity|]. split; [reflexivity|]. split; [reflexivity|].
      split; [|split].
      * apply Permutation_app_head. apply perm_swap.
      * rewrite !length_app. reflexivity.
      * reflexivity.
    + rewrite length_app in H. cbn [List.length] in H. lia.
Qed.

Lemma X22_move_down_exchanges_and_is_undone_witness :
  gui._move_down (map scenario.item ["a.pdf"; "b.pdf"; "c.pdf"]%string, [0%nat])
  = Some (map scenario.item ["b.pdf"; "a.pdf"; "c.pdf"]%string, [1%nat]).
Proof.
  destruct (X22_move_down_exchanges_and_is_undone
              (map scenario.item ["a.pdf"; "b.pdf"; "c.pdf"]%string) 0 [])
    as (_ & _ & H).
  - cbn. lia.
  - destruct H as (moved & E & _); [cbn; lia|].
    rewrite E. vm_compute in E. injection E as <-. reflexivity.
Defined.

(** ** The background task runner *)
Section RunnerFacts.
Import tasks.

Lemma reports_queue (ps : list progress.ExportProgress) :
  forall r,
    progress_queue (fold_left report_progress ps r) = progress_queue r ++ ps /\
    current_task (fold_left report_progress ps r) = current_task r /\
    cancel_flag (fold_left report_progress ps r) = cancel_flag r.
Proof.
  induction ps as [|p ps IH]; intros r; cbn [fold_left].
  - rewrite app_nil_r. auto.
  - destruct (IH (report_progress r p)) as (-> & -> & ->). cbn.
    rewrite <- app_assoc. auto.
Qed.

Lemma poll_queue (q : list progress.ExportProgress) :
  forall t c more,
    poll (List.length q) (mkTaskRunner t (q ++ more) c)
    = (map Some q, mkTaskRunner t more c).
Proof.
  induction q as [|p q IH]; intros t c more; [reflexivity|].
  cbn [List.length poll app]. unfold get_progress at 1.
  cbn [progress_queue current_task cancel_flag].
  rewrite IH. reflexivity.
Qed.

Lemma poll_empty (n : nat) (t : option bool) (c : bool) :
  poll n (mkTaskRunner t [] c) = (repeat None n, mkTaskRunner t [] c).
Proof.
  induction n as [|n IH]; [reflexivity|].
  cbn [poll repeat]. unfold get_progress at 1. cbn [progress_queue].
  rewrite IH. reflexivity.
Qed.

(** Without a [run_task] among them, calls only ever set the flag and
    only ever end the thread. *)
Lemma calls_without_run_task (cs : list Call) :
  forall r,
    forallb (fun c => negb (is_run_task c)) cs = true ->
    cancel_flag (calls r cs) = cancel_flag r || existsb is_cancel cs /\
    is_running (calls r cs) = is_running r && negb (existsb is_task_ends cs).
Proof.
  unfold calls.
  induction cs as [|c cs IH]; intros r Hcs.
  - cbn. rewrite orb_false_r, andb_true_r. auto.
  - cbn [forallb] in Hcs. apply andb_true_iff in Hcs. destruct Hcs as [Hc Hcs].
    cbn [fold_left existsb]. destruct (IH (call r c) Hcs) as [-> ->].
    destruct c; cbn in Hc; try discriminate; cbn.
    + rewrite orb_true_r. split; reflexivity.
    + split; reflexivity.
    + unfold get_progress. destruct (progress_queue r); cbn; split; reflexivity.
    + unfold is_running. cbn. destruct (current_task r) as [[|]|]; cbn;
        rewrite ?andb_false_r; split; reflexivity.
Qed.

End RunnerFacts.

(** X23. The progress queue is first in, first out, and hands out each
    report once: after reports [ps] were put behind the [k] reports already
    waiting, [k + length ps] calls of [get_progress] return the waiting
    reports and then [ps], in the order they were reported (so each call
    returns the oldest unread report, not the latest), and every later call
    returns [None]. *)
Theorem X23_progress_first_in_first_out
    (r : tasks.TaskRunner) (ps : list progress.ExportProgress) (later : nat) :
  let reported := fold_left tasks.report_progress ps r in
  let n := (List.length (tasks.progress_queue r) + List.length ps)%nat in
  fst (tasks.poll n reported) = map Some (tasks.progress_queue r ++ ps) /\
  fst (tasks.poll later (snd (tasks.poll n reported))) = repeat None later /\
  fst (tasks.poll (n + later) reported)
  = map Some (tasks.progress_queue r ++ ps) ++ repeat None later.
Proof.
  cbv zeta.
  destruct (reports_queue ps r) as (Hq & Ht & Hc).
  destruct (fold_left tasks.report_progress ps r) as [t q c].
  cbn [tasks.progress_queue tasks.current_task tasks.cancel_flag] in Hq, Ht, Hc.
  subst q. rewrite <- length_app.
  pose proof (poll_queue (tasks.progress_queue r ++ ps) t c []) as Hp.
  rewrite app_nil_r in Hp. rewrite Hp. cbn [fst snd].
  split; [reflexivity|]. split.
  - rewrite poll_empty. reflexivity.
  - generalize (tasks.progress_queue r ++ ps). intros q. clear.
    revert t c. induction q as [|p q IH]; intros t c.
    + cbn [List.length Nat.add map app]. rewrite poll_empty. reflexivity.
    + cbn [List.length Nat.add tasks.poll map app]. unfold tasks.get_progress at 1.
      cbn [tasks.progress_queue tasks.current_task tasks.cancel_flag].
      specialize (IH t c).
      destruct (tasks.poll (List.length q + later) (tasks.mkTaskRunner t q c))
        as [answers r'].
      cbn [fst] in *. rewrite IH. reflexivity.
Qed.

(** X24. A runner with no live task accepts [run_task], whatever its cancel
    flag was; after any calls that follow, none of them a [run_task], the
    runner reports a cancellation exactly when [cancel] was called since
    the task started (a cancellation requested before the start is lost),
    a task is running exactly when the thread has not ended, and [run_task]
    raises exactly while it runs; the waiting progress reports of the
    earlier task are still in the queue when the new one starts. *)
Theorem X24_cancellation_is_per_task
    (r : tasks.TaskRunner) (during : list tasks.Call) :
  tasks.is_running r = false ->
  forallb (fun c => negb (tasks.is_run_task c)) during = true ->
  exists started,
    tasks.run_task r = Some started /\
    tasks.progress_queue started = tasks.progress_queue r /\
    tasks.is_cancelled (tasks.calls started during)
    = existsb tasks.is_cancel during /\
    tasks.is_running (tasks.calls started during)
    = negb (existsb tasks.is_task_ends during) /\
    (tasks.run_task (tasks.calls started during) = None <->
     existsb tasks.is_task_ends during = false).
Proof.
  intros Hidle Hcs. unfold tasks.run_task at 1. rewrite Hidle.
  eexists. split; [reflexivity|]. split; [reflexivity|].
  destruct (calls_without_run_task during
              (tasks.mkTaskRunner (Some true) (tasks.progress_queue r) false) Hcs)
    as [Hc Hr].
  unfold tasks.is_cancelled. rewrite Hc. cbn [tasks.cancel_flag orb].
  split; [reflexivity|].
  assert (Hrun : tasks.is_running
                   (tasks.calls (tasks.mkTaskRunner (Some true) (tasks.progress_queue r) false)
                      during)
                 = negb (existsb tasks.is_task_ends during)).
  { rewrite Hr. reflexivity. }
  split; [exact Hrun|].
  unfold tasks.run_task. rewrite Hrun.
  destruct (existsb tasks.is_task_ends during); cbn; split; congruence.
Qed.

Lemma X24_cancellation_is_per_task_witness :
  tasks.is_cancelled
    (tasks.calls (tasks.mkTaskRunner (Some true) [] false)
       [tasks.Cancel; tasks.GetProgress; tasks.TaskEnds]) = true.
Proof.
  destruct (X24_cancellation_is_per_task (tasks.cancel tasks.init)
              [tasks.Cancel; tasks.GetProgress; tasks.TaskEnds])
    as (started & Es & _ & Hc & _).
  - reflexivity.
  - reflexivity.
  - vm_compute in Es. injection Es as <-. rewrite Hc. reflexivity.
Defined.
